(** * The [no-self-assign] rule of tslint (src/rules/noSelfAssignRule.ts)

    A shallow embedding of the rule: the part of the TypeScript syntax
    tree the rule inspects, the walker [walk]/[recur], the pairwise
    checker [doCheck] and its helpers [isSameIdentifier], [isSameMember],
    [isSameProperty], [isSameElementAccess], [isPropertySelfAssigned], and
    the entry point [apply].

    The findings list of the walk context is threaded explicitly; the one
    operation of the rule that can raise (reading [props] of a nullish
    options value) lives in a small error monad. *)

From Stdlib Require Import String Ascii List Bool Arith Lia ZArith.
Import ListNotations.
Open Scope string_scope.
Open Scope list_scope.

Set Implicit Arguments.
Set Warnings "-register-all".

(* ================================================================== *)
(** ** JavaScript values and exceptions *)

(** The rule arguments come from the linter configuration (JSON), typed
    [any[]] in the source.  Numbers are kept as integers. *)
Inductive JsValue : Type :=
| JsUndefined
| JsNull
| JsBoolean (b : bool)
| JsNumber (n : Z)
| JsString (s : string)
| JsArray (items : list JsValue)
| JsObject (fields : list (string * JsValue)).

Inductive JsError : Type :=
| TypeError (message : string).

Inductive Result (A : Type) : Type :=
| Ok (a : A)
| Throw (e : JsError).

Arguments Ok {A} a.
Arguments Throw {A} e.

Definition bind {A B : Type} (m : Result A) (k : A -> Result B) : Result B :=
  match m with
  | Ok a => k a
  | Throw e => Throw e
  end.

Declare Scope result_scope.
Delimit Scope result_scope with result.
Notation "x <- m ;; k" := (bind m (fun x => k))
  (at level 61, m at next level, right associativity) : result_scope.
Open Scope result_scope.

(** JavaScript truthiness (ToBoolean), as used by [ctx.options.props && ...]. *)
Definition toBoolean (v : JsValue) : bool :=
  match v with
  | JsUndefined | JsNull => false
  | JsBoolean b => b
  | JsNumber n => negb (Z.eqb n 0)
  | JsString s => negb (String.eqb s "")
  | JsArray _ | JsObject _ => true
  end.

Fixpoint lookupField (key : string) (fields : list (string * JsValue)) : JsValue :=
  match fields with
  | [] => JsUndefined
  | (k, v) :: rest => if String.eqb k key then v else lookupField key rest
  end.

(** The member read [o.props]: a TypeError on [undefined] and [null], the
    own field of an object, [undefined] on every other value (no
    primitive and no array has a member of that name). *)
Definition getProps (o : JsValue) : Result JsValue :=
  match o with
  | JsUndefined => Throw (TypeError "Cannot read property 'props' of undefined")
  | JsNull => Throw (TypeError "Cannot read property 'props' of null")
  | JsObject fields => Ok (lookupField "props" fields)
  | _ => Ok JsUndefined
  end.

(* ================================================================== *)
(** ** The syntax tree *)

(** Kinds of leaf tokens: punctuation and keywords ([ts.SyntaxKind]). *)
Inductive TokenKind : Type :=
| EndOfFileToken
| EqualsToken
| PlusEqualsToken
| MinusEqualsToken
| AsteriskEqualsToken
| AsteriskAsteriskEqualsToken
| SlashEqualsToken
| PercentEqualsToken
| LessThanLessThanEqualsToken
| GreaterThanGreaterThanEqualsToken
| GreaterThanGreaterThanGreaterThanEqualsToken
| AmpersandEqualsToken
| BarEqualsToken
| CaretEqualsToken
| AmpersandAmpersandEqualsToken
| BarBarEqualsToken
| QuestionQuestionEqualsToken
| PlusToken
| MinusToken
| AsteriskToken
| SlashToken
| CommaToken
| EqualsEqualsToken
| EqualsEqualsEqualsToken
| AmpersandAmpersandToken
| BarBarToken
| PercentToken
| AsteriskAsteriskToken
| LessThanToken
| GreaterThanToken
| LessThanEqualsToken
| GreaterThanEqualsToken
| ExclamationEqualsToken
| ExclamationEqualsEqualsToken
| LessThanLessThanToken
| GreaterThanGreaterThanToken
| GreaterThanGreaterThanGreaterThanToken
| AmpersandToken
| BarToken
| CaretToken
| QuestionQuestionToken
| QuestionToken
| InKeyword
| InstanceOfKeyword
| ThisKeyword
| SuperKeyword
| NullKeyword
| TrueKeyword
| FalseKeyword
| PublicKeyword
| PrivateKeyword
| ProtectedKeyword
| StaticKeyword
| ReadonlyKeyword.

Scheme Equality for TokenKind.

(** Kinds between [FirstLiteralToken] and [LastLiteralToken]. *)
Inductive LiteralKind : Type :=
| NumericLiteral
| BigIntLiteral
| StringLiteral
| JsxText
| JsxTextAllWhiteSpaces
| RegularExpressionLiteral
| NoSubstitutionTemplateLiteral.

Scheme Equality for LiteralKind.

(** Token range of a node: what [node.getStart(sourceFile)] and
    [node.getEnd()] return. *)
Record TextRange : Type := mkRange { rangeStart : nat; rangeEnd : nat }.

(** The node kinds the rule looks at, with the fields it reads and the
    children [ts.forEachChild] visits, in that order.  [text] of an
    identifier or literal is the cooked text the parser stores (escapes
    resolved, quotes dropped), not the source text; the [name] of a
    property access is an identifier.  Every other kind of
    node (statements, calls, parentheses, class declarations, property
    assignments, omitted elements, ...) is an [OtherNode] with its kind
    name and its children in visiting order.  Leaf tokens the rule never
    reads ([?], [!], the [=] of a shorthand default) are left out of
    their parents. *)
Inductive Node : Type :=
| Token (range : TextRange) (kind : TokenKind)
| Identifier (range : TextRange) (text : string)
| LiteralExpression (range : TextRange) (kind : LiteralKind) (text : string)
| PropertyAccessExpression (range : TextRange) (expression name : Node)
| ElementAccessExpression (range : TextRange) (expression : Node)
    (argumentExpression : option Node)
| ArrayLiteralExpression (range : TextRange) (elements : list Node)
| SpreadElement (range : TextRange) (expression : Node)
| ObjectLiteralExpression (range : TextRange) (properties : list Node)
| ShorthandPropertyAssignment (range : TextRange) (name : Node)
    (objectAssignmentInitializer : option Node)
| SpreadAssignment (range : TextRange) (expression : Node)
| BinaryExpression (range : TextRange) (left operatorToken right : Node)
| PropertyDeclaration (range : TextRange) (modifiers : list Node) (name : Node)
    (type initializer : option Node)
| OtherNode (range : TextRange) (kindName : string) (children : list Node).

Record SourceFile : Type := mkSourceFile {
  sourceText : string;
  statements : list Node;
  endOfFileToken : Node
}.

Definition nodeRange (n : Node) : TextRange :=
  match n with
  | Token r _ | Identifier r _ | LiteralExpression r _ _
  | PropertyAccessExpression r _ _ | ElementAccessExpression r _ _
  | ArrayLiteralExpression r _ | SpreadElement r _
  | ObjectLiteralExpression r _ | ShorthandPropertyAssignment r _ _
  | SpreadAssignment r _ | BinaryExpression r _ _ _
  | PropertyDeclaration r _ _ _ _ | OtherNode r _ _ => r
  end.

Definition getStart (n : Node) : nat := rangeStart (nodeRange n).
Definition getEnd (n : Node) : nat := rangeEnd (nodeRange n).

(** [String.prototype.substring(a, b)]: the arguments are swapped when
    [a > b] and clamped to the length of the string. *)
Definition jsSubstring (a b : nat) (s : string) : string :=
  substring (Nat.min a b) (Nat.max a b - Nat.min a b) s.

(** [node.getText()]: the source text between the node's token start and
    its end. *)
Definition getText (sf : SourceFile) (n : Node) : string :=
  jsSubstring (getStart n) (getEnd n) (sourceText sf).

(** The [.text] member: [undefined] ([None]) on nodes that have none. *)
Definition textOf (n : Node) : option string :=
  match n with
  | Identifier _ t => Some t
  | LiteralExpression _ _ t => Some t
  | _ => None
  end.

(** [===] on the value of a [.text] member. *)
Definition strictEq (a b : option string) : bool :=
  match a, b with
  | Some x, Some y => String.eqb x y
  | None, None => true
  | _, _ => false
  end.

(** *** Kind tests (tsutils type guards) *)

Definition hasKind (k : TokenKind) (n : Node) : bool :=
  match n with
  | Token _ k' => TokenKind_beq k' k
  | _ => false
  end.

Definition isIdentifier (n : Node) : bool :=
  match n with Identifier _ _ => true | _ => false end.

Definition isLiteralExpression (n : Node) : bool :=
  match n with LiteralExpression _ _ _ => true | _ => false end.

Definition isPropertyAccessExpression (n : Node) : bool :=
  match n with PropertyAccessExpression _ _ _ => true | _ => false end.

Definition isElementAccessExpression (n : Node) : bool :=
  match n with ElementAccessExpression _ _ _ => true | _ => false end.

Definition isArrayLiteralExpression (n : Node) : bool :=
  match n with ArrayLiteralExpression _ _ => true | _ => false end.

Definition isObjectLiteralExpression (n : Node) : bool :=
  match n with ObjectLiteralExpression _ _ => true | _ => false end.

Definition isShorthandPropertyAssignment (n : Node) : bool :=
  match n with ShorthandPropertyAssignment _ _ _ => true | _ => false end.

Definition isSpreadAssignment (n : Node) : bool :=
  match n with SpreadAssignment _ _ => true | _ => false end.

Definition isSpreadElement (n : Node) : bool :=
  match n with SpreadElement _ _ => true | _ => false end.

Definition isBinaryExpression (n : Node) : bool :=
  match n with BinaryExpression _ _ _ _ => true | _ => false end.

Definition isPropertyDeclaration (n : Node) : bool :=
  match n with PropertyDeclaration _ _ _ _ _ => true | _ => false end.

(* ================================================================== *)
(** ** The walk context *)

(** Modelled from the spec: a finding of the host linter ([Lint.RuleFailure],
    not under src/) is a source range and a message. *)
Record RuleFailure : Type := mkFailure {
  failureStart : nat;
  failureEnd : nat;
  failureMessage : string
}.

(** Modelled from the spec: the host's [Lint.WalkContext] (not under src/)
    holds the source file, the options of the run and the findings
    registered so far, in discovery order. *)
Record WalkContext : Type := mkContext {
  sourceFile : SourceFile;
  options : JsValue;
  failures : list RuleFailure
}.

(** Modelled from the spec: [ctx.addFailureAtNode] of the host (not under
    src/) registers a finding whose range is the node's and whose message
    is the given one, after the findings already registered. *)
Definition addFailureAtNode (ctx : WalkContext) (node : Node) (failure : string)
  : WalkContext :=
  mkContext (sourceFile ctx) (options ctx)
    (failures ctx ++ [mkFailure (getStart node) (getEnd node) failure]).

(** [Rule.FAILURE_STRING] *)
Definition FAILURE_STRING (name : string) : string :=
  "variable '" ++ name ++ "' is assigned to itself.".

(** [report] *)
Definition report (node : Node) (ctx : WalkContext) : WalkContext :=
  addFailureAtNode ctx node (FAILURE_STRING (getText (sourceFile ctx) node)).

(* ================================================================== *)
(** ** Sequencing of loops *)

Section Loops.
Context {A S : Type}.
Variable body : A -> S -> Result S.

(** [for (const x of xs) body(x)] *)
Fixpoint forEach (xs : list A) (s : S) : Result S :=
  match xs with
  | [] => Ok s
  | x :: rest => s' <- body x s ;; forEach rest s'
  end.
End Loops.

Section OptionalChild.
Context {S : Type}.
Variable cb : Node -> S -> Result S.

(** [visitNode(cb, child)] on a child that may be absent. *)
Definition visitNode (child : option Node) (s : S) : Result S :=
  match child with
  | Some c => cb c s
  | None => Ok s
  end.

(** [ts.forEachChild(node, cb)] for a callback that never returns a
    truthy value (as [recur], which returns what [forEachChild]
    returns on its children): every child is visited, in order. *)
Definition forEachChild (node : Node) (s : S) : Result S :=
  match node with
  | Token _ _ | Identifier _ _ | LiteralExpression _ _ _ => Ok s
  | PropertyAccessExpression _ e n =>
      s <- cb e s ;; cb n s
  | ElementAccessExpression _ e a =>
      s <- cb e s ;; visitNode a s
  | ArrayLiteralExpression _ es => forEach cb es s
  | SpreadElement _ e => cb e s
  | ObjectLiteralExpression _ ps => forEach cb ps s
  | ShorthandPropertyAssignment _ n i =>
      s <- cb n s ;; visitNode i s
  | SpreadAssignment _ e => cb e s
  | BinaryExpression _ l op r =>
      s <- cb l s ;; s <- cb op s ;; cb r s
  | PropertyDeclaration _ ms n t i =>
      s <- forEach cb ms s ;; s <- cb n s ;; s <- visitNode t s ;; visitNode i s
  | OtherNode _ _ cs => forEach cb cs s
  end.
End OptionalChild.

(* ================================================================== *)
(** ** The rule: helpers *)

(** [isSameIdentifier] (source lines 184-186) *)
Definition isSameIdentifier (left right : Node) : bool :=
  isIdentifier left && isIdentifier right && strictEq (textOf left) (textOf right).

(** [isSameProperty] (source lines 203-210) *)
Definition isSameProperty (left right : Node) : bool :=
  match left, right with
  | PropertyAccessExpression _ _ leftName, PropertyAccessExpression _ _ rightName =>
      strictEq (textOf leftName) (textOf rightName)
  | _, _ => false
  end.

(** [isSameMember] (source lines 188-201).  The source types both
    arguments as property accesses; on any other node [isSameProperty]
    already answers [false]. *)
Fixpoint isSameMember (left right : Node) {struct left} : bool :=
  if negb (isSameProperty left right) then false
  else
    match left, right with
    | PropertyAccessExpression _ leftExp _, PropertyAccessExpression _ rightExp _ =>
        if isPropertyAccessExpression leftExp && isPropertyAccessExpression rightExp
        then isSameMember leftExp rightExp
        else isIdentifier leftExp && isIdentifier rightExp
             && strictEq (textOf leftExp) (textOf rightExp)
    | _, _ => false
    end.

(** [isSameElementAccess] (source lines 163-182) *)
Definition isSameElementAccess (left right : Node) : bool :=
  match left, right with
  | ElementAccessExpression _ leftExp leftArg, ElementAccessExpression _ rightExp rightArg =>
      if isSameIdentifier leftExp rightExp then
        match leftArg, rightArg with
        | Some la, Some ra =>
            if isIdentifier la && isIdentifier ra
            then strictEq (textOf la) (textOf ra)
            else if isLiteralExpression la && isLiteralExpression ra
            then strictEq (textOf la) (textOf ra)
            else false
        | _, _ => false
        end
      else false
  | _, _ => false
  end.

(** [isPropertySelfAssigned] (source lines 89-97) *)
Definition isPropertySelfAssigned (prop : Node) : bool :=
  match prop with
  | PropertyDeclaration _ _ name _ (Some (PropertyAccessExpression _ expression initializerName)) =>
      if isIdentifier name then
        hasKind ThisKeyword expression && isIdentifier initializerName
        && strictEq (textOf name) (textOf initializerName)
      else false
  | _ => false
  end.

(* ================================================================== *)
(** ** The rule: [doCheck] *)

(** The downward scan of source lines 127-134: [i] is one more than the
    index looked at next; the answer is [j + 1] for the first spread
    property found at an index [j], and [0] when the scan runs out. *)
Fixpoint scanSpread (props : list Node) (i : nat) : nat :=
  match i with
  | 0 => 0
  | S j =>
      if match nth_error props j with
         | Some p => isSpreadAssignment p
         | None => false
         end
      then S j
      else scanSpread props j
  end.

Definition startRight (props : list Node) : nat :=
  scanSpread props (length props).

Section PairLoops.
Variable check : Node -> Node -> WalkContext -> Result WalkContext.

(** Source lines 109-117: [i] runs over both element lists in step,
    below the shorter length, and the loop is left after the body when
    the right element is a spread element. *)
Fixpoint checkElements (ls rs : list Node) (ctx : WalkContext)
  : Result WalkContext :=
  match ls, rs with
  | l :: ls', r :: rs' =>
      ctx <- check l r ctx ;;
      if isSpreadElement r then Ok ctx else checkElements ls' rs' ctx
  | _, _ => Ok ctx
  end.
End PairLoops.

(** The body of [doCheck] once both sides are known to be present
    (source lines 104-159).  The recursive calls of the source pass
    elements, properties and names, which are present. *)
Fixpoint doCheckNode (left right : Node) (ctx : WalkContext) {struct left}
  : Result WalkContext :=
  let ctx := if isSameIdentifier left right then report right ctx else ctx in
  ctx <- match left, right with
         | ArrayLiteralExpression _ ls, ArrayLiteralExpression _ rs =>
             checkElements doCheckNode ls rs ctx
         | _, _ => Ok ctx
         end ;;
  ctx <- match left, right with
         | ObjectLiteralExpression _ lps, ObjectLiteralExpression _ rps =>
             forEach (fun leftProp =>
                        forEach (fun rightProp => doCheckNode leftProp rightProp)
                                (skipn (startRight rps) rps))
                     lps ctx
         | _, _ => Ok ctx
         end ;;
  ctx <- match left, right with
         | ShorthandPropertyAssignment _ leftName None,
           ShorthandPropertyAssignment _ rightName _ =>
             doCheckNode leftName rightName ctx
         | _, _ => Ok ctx
         end ;;
  p <- getProps (options ctx) ;;
  if toBoolean p && isPropertyAccessExpression left
     && isPropertyAccessExpression right && isSameMember left right
  then Ok (report right ctx)
  else
    p <- getProps (options ctx) ;;
    if toBoolean p && isElementAccessExpression left
       && isElementAccessExpression right && isSameElementAccess left right
    then Ok (report right ctx)
    else Ok ctx.

(** [doCheck] (source lines 99-160): nothing happens when a side is
    [undefined]. *)
Definition doCheck (left right : option Node) (ctx : WalkContext)
  : Result WalkContext :=
  match left, right with
  | Some l, Some r => doCheckNode l r ctx
  | _, _ => Ok ctx
  end.

(* ================================================================== *)
(** ** The rule: the walker *)

(** [recur] (source lines 73-83) *)
Fixpoint recur (node : Node) (ctx : WalkContext) {struct node}
  : Result WalkContext :=
  ctx <- match node with
         | BinaryExpression _ l op r =>
             if hasKind EqualsToken op then doCheck (Some l) (Some r) ctx
             else Ok ctx
         | _ => Ok ctx
         end ;;
  let ctx :=
    match node with
    | PropertyDeclaration _ _ _ _ (Some initializer) =>
        if isPropertySelfAssigned node then report initializer ctx else ctx
    | _ => ctx
    end in
  forEachChild recur node ctx.

(** [walk] (source lines 72-84): [ts.forEachChild] on the source file
    visits its statements and then its end-of-file token. *)
Definition walk (ctx : WalkContext) : Result WalkContext :=
  ctx' <- forEach recur (statements (sourceFile ctx)) ctx ;;
  recur (endOfFileToken (sourceFile ctx)) ctx'.

(** Modelled from the spec: [applyWithFunction] of the host's
    [AbstractRule] (not under src/) runs the walk function on a fresh
    context with no findings and returns the findings it registered. *)
Definition applyWithFunction (sf : SourceFile)
    (walkFn : WalkContext -> Result WalkContext) (opt : JsValue)
  : Result (list RuleFailure) :=
  ctx <- walkFn (mkContext sf opt []) ;;
  Ok (failures ctx).

(** [Rule.apply] (source lines 64-69) *)
Definition apply (ruleArguments : list JsValue) (sf : SourceFile)
  : Result (list RuleFailure) :=
  let opt :=
    match ruleArguments with
    | first :: _ => first
    | [] => JsObject [("props", JsBoolean true)]
    end in
  applyWithFunction sf walk opt.

(* ================================================================== *)
(** ** Induction on syntax trees *)

(** The property holds of an optional child when the child is present. *)
Definition onChild (P : Node -> Prop) (c : option Node) : Prop :=
  match c with
  | Some n => P n
  | None => True
  end.

Section NodeInduction.
Variable P : Node -> Prop.
Hypothesis HToken : forall r k, P (Token r k).
Hypothesis HIdentifier : forall r t, P (Identifier r t).
Hypothesis HLiteral : forall r k t, P (LiteralExpression r k t).
Hypothesis HPropertyAccess :
  forall r e n, P e -> P n -> P (PropertyAccessExpression r e n).
Hypothesis HElementAccess :
  forall r e a, P e -> onChild P a -> P (ElementAccessExpression r e a).
Hypothesis HArray :
  forall r es, Forall P es -> P (ArrayLiteralExpression r es).
Hypothesis HSpreadElement : forall r e, P e -> P (SpreadElement r e).
Hypothesis HObject :
  forall r ps, Forall P ps -> P (ObjectLiteralExpression r ps).
Hypothesis HShorthand :
  forall r n i, P n -> onChild P i -> P (ShorthandPropertyAssignment r n i).
Hypothesis HSpreadAssignment : forall r e, P e -> P (SpreadAssignment r e).
Hypothesis HBinary :
  forall r l op rt, P l -> P op -> P rt -> P (BinaryExpression r l op rt).
Hypothesis HPropertyDeclaration :
  forall r ms n t i,
    Forall P ms -> P n -> onChild P t -> onChild P i ->
    P (PropertyDeclaration r ms n t i).
Hypothesis HOther : forall r k cs, Forall P cs -> P (OtherNode r k cs).

Fixpoint Node_induction (n : Node) : P n :=
  let all :=
    fix all (l : list Node) : Forall P l :=
      match l with
      | [] => Forall_nil P
      | x :: xs => Forall_cons x (Node_induction x) (all xs)
      end in
  let opt (c : option Node) : onChild P c :=
    match c return onChild P c with
    | Some x => Node_induction x
    | None => I
    end in
  match n with
  | Token r k => HToken r k
  | Identifier r t => HIdentifier r t
  | LiteralExpression r k t => HLiteral r k t
  | PropertyAccessExpression r e nm =>
      @HPropertyAccess r e nm (Node_induction e) (Node_induction nm)
  | ElementAccessExpression r e a =>
      @HElementAccess r e a (Node_induction e) (opt a)
  | ArrayLiteralExpression r es => @HArray r es (all es)
  | SpreadElement r e => @HSpreadElement r e (Node_induction e)
  | ObjectLiteralExpression r ps => @HObject r ps (all ps)
  | ShorthandPropertyAssignment r nm i =>
      @HShorthand r nm i (Node_induction nm) (opt i)
  | SpreadAssignment r e => @HSpreadAssignment r e (Node_induction e)
  | BinaryExpression r l op rt =>
      @HBinary r l op rt (Node_induction l) (Node_induction op) (Node_induction rt)
  | PropertyDeclaration r ms nm t i =>
      @HPropertyDeclaration r ms nm t i (all ms) (Node_induction nm) (opt t) (opt i)
  | OtherNode r k cs => @HOther r k cs (all cs)
  end.
End NodeInduction.

(* ================================================================== *)
(** ** The findings as a function of the tree

    [doCheck] and [recur] only ever append to the findings of the
    context.  The functions below read off, from the same case analysis,
    the findings each of them appends; [props] is the truthiness of
    [ctx.options.props].  They are related to the stateful definitions
    by [doCheckNode_findings] and [recur_findings] below. *)

Definition failureAt (sf : SourceFile) (node : Node) : RuleFailure :=
  mkFailure (getStart node) (getEnd node) (FAILURE_STRING (getText sf node)).

Section Findings.
Variable sf : SourceFile.
Variable props : bool.

Section Elements.
Variable found : Node -> Node -> list RuleFailure.

Fixpoint elementFindings (ls rs : list Node) : list RuleFailure :=
  match ls, rs with
  | l :: ls', r :: rs' =>
      found l r ++ (if isSpreadElement r then [] else elementFindings ls' rs')
  | _, _ => []
  end.
End Elements.

Fixpoint pairFindings (left right : Node) {struct left} : list RuleFailure :=
  (if isSameIdentifier left right then [failureAt sf right] else [])
  ++ match left, right with
     | ArrayLiteralExpression _ ls, ArrayLiteralExpression _ rs =>
         elementFindings pairFindings ls rs
     | _, _ => []
     end
  ++ match left, right with
     | ObjectLiteralExpression _ lps, ObjectLiteralExpression _ rps =>
         flat_map (fun leftProp =>
                     flat_map (fun rightProp => pairFindings leftProp rightProp)
                              (skipn (startRight rps) rps))
                  lps
     | _, _ => []
     end
  ++ match left, right with
     | ShorthandPropertyAssignment _ leftName None,
       ShorthandPropertyAssignment _ rightName _ =>
         pairFindings leftName rightName
     | _, _ => []
     end
  ++ (if props && isPropertyAccessExpression left
         && isPropertyAccessExpression right && isSameMember left right
      then [failureAt sf right]
      else if props && isElementAccessExpression left
              && isElementAccessExpression right && isSameElementAccess left right
      then [failureAt sf right]
      else []).

Definition childFindings (found : Node -> list RuleFailure) (c : option Node)
  : list RuleFailure :=
  match c with
  | Some n => found n
  | None => []
  end.

Fixpoint nodeFindings (node : Node) : list RuleFailure :=
  match node with
  | BinaryExpression _ l op r =>
      if hasKind EqualsToken op then pairFindings l r else []
  | _ => []
  end
  ++ match node with
     | PropertyDeclaration _ _ _ _ (Some initializer) =>
         if isPropertySelfAssigned node then [failureAt sf initializer] else []
     | _ => []
     end
  ++ match node with
     | Token _ _ | Identifier _ _ | LiteralExpression _ _ _ => []
     | PropertyAccessExpression _ e n => nodeFindings e ++ nodeFindings n
     | ElementAccessExpression _ e a =>
         nodeFindings e ++ childFindings nodeFindings a
     | ArrayLiteralExpression _ es => flat_map nodeFindings es
     | SpreadElement _ e => nodeFindings e
     | ObjectLiteralExpression _ ps => flat_map nodeFindings ps
     | ShorthandPropertyAssignment _ n i =>
         nodeFindings n ++ childFindings nodeFindings i
     | SpreadAssignment _ e => nodeFindings e
     | BinaryExpression _ l op r =>
         nodeFindings l ++ nodeFindings op ++ nodeFindings r
     | PropertyDeclaration _ ms n t i =>
         flat_map nodeFindings ms ++ nodeFindings n
         ++ childFindings nodeFindings t ++ childFindings nodeFindings i
     | OtherNode _ _ cs => flat_map nodeFindings cs
     end.

Definition fileFindings : list RuleFailure :=
  flat_map nodeFindings (statements sf) ++ nodeFindings (endOfFileToken sf).
End Findings.

(* ================================================================== *)
(** ** Source files used as test inputs

    Each tree is the parse of the source text it carries; the ranges are
    the offsets of the tokens in that text. *)

(** The double-quote character. *)
Definition quote : string := String (Ascii.ascii_of_nat 34) EmptyString.

Definition file_obj_spread_middle : SourceFile :=
  mkSourceFile "({a, b} = {a, ...x, b});"
    [ OtherNode (mkRange 0 24) "ExpressionStatement"
        [ OtherNode (mkRange 0 23) "ParenthesizedExpression"
            [ BinaryExpression (mkRange 1 22)
                (ObjectLiteralExpression (mkRange 1 7)
                   [ ShorthandPropertyAssignment (mkRange 2 3)
                       (Identifier (mkRange 2 3) "a")
                       None;
                     ShorthandPropertyAssignment (mkRange 5 6)
                       (Identifier (mkRange 5 6) "b")
                       None ])
                (Token (mkRange 8 9) EqualsToken)
                (ObjectLiteralExpression (mkRange 10 22)
                   [ ShorthandPropertyAssignment (mkRange 11 12)
                       (Identifier (mkRange 11 12) "a")
                       None;
                     SpreadAssignment (mkRange 14 18)
                       (Identifier (mkRange 17 18) "x");
                     ShorthandPropertyAssignment (mkRange 20 21)
                       (Identifier (mkRange 20 21) "b")
                       None ]) ] ] ]
    (Token (mkRange 24 24) EndOfFileToken).

Definition file_obj_spread_first : SourceFile :=
  mkSourceFile "({a, b} = {...x, a, b});"
    [ OtherNode (mkRange 0 24) "ExpressionStatement"
        [ OtherNode (mkRange 0 23) "ParenthesizedExpression"
            [ BinaryExpression (mkRange 1 22)
                (ObjectLiteralExpression (mkRange 1 7)
                   [ ShorthandPropertyAssignment (mkRange 2 3)
                       (Identifier (mkRange 2 3) "a")
                       None;
                     ShorthandPropertyAssignment (mkRange 5 6)
                       (Identifier (mkRange 5 6) "b")
                       None ])
                (Token (mkRange 8 9) EqualsToken)
                (ObjectLiteralExpression (mkRange 10 22)
                   [ SpreadAssignment (mkRange 11 15)
                       (Identifier (mkRange 14 15) "x");
                     ShorthandPropertyAssignment (mkRange 17 18)
                       (Identifier (mkRange 17 18) "a")
                       None;
                     ShorthandPropertyAssignment (mkRange 20 21)
                       (Identifier (mkRange 20 21) "b")
                       None ]) ] ] ]
    (Token (mkRange 24 24) EndOfFileToken).

Definition file_obj_plain : SourceFile :=
  mkSourceFile "({a, b} = {a, b});"
    [ OtherNode (mkRange 0 18) "ExpressionStatement"
        [ OtherNode (mkRange 0 17) "ParenthesizedExpression"
            [ BinaryExpression (mkRange 1 16)
                (ObjectLiteralExpression (mkRange 1 7)
                   [ ShorthandPropertyAssignment (mkRange 2 3)
                       (Identifier (mkRange 2 3) "a")
                       None;
                     ShorthandPropertyAssignment (mkRange 5 6)
                       (Identifier (mkRange 5 6) "b")
                       None ])
                (Token (mkRange 8 9) EqualsToken)
                (ObjectLiteralExpression (mkRange 10 16)
                   [ ShorthandPropertyAssignment (mkRange 11 12)
                       (Identifier (mkRange 11 12) "a")
                       None;
                     ShorthandPropertyAssignment (mkRange 14 15)
                       (Identifier (mkRange 14 15) "b")
                       None ]) ] ] ]
    (Token (mkRange 18 18) EndOfFileToken).

Definition file_obj_single : SourceFile :=
  mkSourceFile "({a} = {a});"
    [ OtherNode (mkRange 0 12) "ExpressionStatement"
        [ OtherNode (mkRange 0 11) "ParenthesizedExpression"
            [ BinaryExpression (mkRange 1 10)
                (ObjectLiteralExpression (mkRange 1 4)
                   [ ShorthandPropertyAssignment (mkRange 2 3)
                       (Identifier (mkRange 2 3) "a")
                       None ])
                (Token (mkRange 5 6) EqualsToken)
                (ObjectLiteralExpression (mkRange 7 10)
                   [ ShorthandPropertyAssignment (mkRange 8 9)
                       (Identifier (mkRange 8 9) "a")
                       None ]) ] ] ]
    (Token (mkRange 12 12) EndOfFileToken).

Definition file_arr_plain : SourceFile :=
  mkSourceFile "[a, b] = [a, b];"
    [ OtherNode (mkRange 0 16) "ExpressionStatement"
        [ BinaryExpression (mkRange 0 15)
            (ArrayLiteralExpression (mkRange 0 6)
               [Identifier (mkRange 1 2) "a"; Identifier (mkRange 4 5) "b"])
            (Token (mkRange 7 8) EqualsToken)
            (ArrayLiteralExpression (mkRange 9 15)
               [ Identifier (mkRange 10 11) "a";
                 Identifier (mkRange 13 14) "b" ]) ] ]
    (Token (mkRange 16 16) EndOfFileToken).

Definition file_arr_rest : SourceFile :=
  mkSourceFile "[a, b] = [a, ...rest];"
    [ OtherNode (mkRange 0 22) "ExpressionStatement"
        [ BinaryExpression (mkRange 0 21)
            (ArrayLiteralExpression (mkRange 0 6)
               [Identifier (mkRange 1 2) "a"; Identifier (mkRange 4 5) "b"])
            (Token (mkRange 7 8) EqualsToken)
            (ArrayLiteralExpression (mkRange 9 21)
               [ Identifier (mkRange 10 11) "a";
                 SpreadElement (mkRange 13 20)
                   (Identifier (mkRange 16 20) "rest") ]) ] ]
    (Token (mkRange 22 22) EndOfFileToken).

Definition file_arr_nested : SourceFile :=
  mkSourceFile "[a, b] = [...x, b = b];"
    [ OtherNode (mkRange 0 23) "ExpressionStatement"
        [ BinaryExpression (mkRange 0 22)
            (ArrayLiteralExpression (mkRange 0 6)
               [Identifier (mkRange 1 2) "a"; Identifier (mkRange 4 5) "b"])
            (Token (mkRange 7 8) EqualsToken)
            (ArrayLiteralExpression (mkRange 9 22)
               [ SpreadElement (mkRange 10 14)
                   (Identifier (mkRange 13 14) "x");
                 BinaryExpression (mkRange 16 21)
                   (Identifier (mkRange 16 17) "b")
                   (Token (mkRange 18 19) EqualsToken)
                   (Identifier (mkRange 20 21) "b") ]) ] ]
    (Token (mkRange 23 23) EndOfFileToken).

Definition file_member : SourceFile :=
  mkSourceFile "a.b.c = a.b.c;"
    [ OtherNode (mkRange 0 14) "ExpressionStatement"
        [ BinaryExpression (mkRange 0 13)
            (PropertyAccessExpression (mkRange 0 5)
               (PropertyAccessExpression (mkRange 0 3)
                  (Identifier (mkRange 0 1) "a")
                  (Identifier (mkRange 2 3) "b"))
               (Identifier (mkRange 4 5) "c"))
            (Token (mkRange 6 7) EqualsToken)
            (PropertyAccessExpression (mkRange 8 13)
               (PropertyAccessExpression (mkRange 8 11)
                  (Identifier (mkRange 8 9) "a")
                  (Identifier (mkRange 10 11) "b"))
               (Identifier (mkRange 12 13) "c")) ] ]
    (Token (mkRange 14 14) EndOfFileToken).

Definition file_elem_string : SourceFile :=
  mkSourceFile ("a[" ++ quote ++ "x" ++ quote ++ "] = a[" ++ quote ++ "x" ++ quote ++ "];")
    [ OtherNode (mkRange 0 16) "ExpressionStatement"
        [ BinaryExpression (mkRange 0 15)
            (ElementAccessExpression (mkRange 0 6)
               (Identifier (mkRange 0 1) "a")
               (Some (LiteralExpression (mkRange 2 5) StringLiteral "x")))
            (Token (mkRange 7 8) EqualsToken)
            (ElementAccessExpression (mkRange 9 15)
               (Identifier (mkRange 9 10) "a")
               (Some (LiteralExpression (mkRange 11 14) StringLiteral "x"))) ] ]
    (Token (mkRange 16 16) EndOfFileToken).

Definition file_elem_idents : SourceFile :=
  mkSourceFile "a[x] = a[y];"
    [ OtherNode (mkRange 0 12) "ExpressionStatement"
        [ BinaryExpression (mkRange 0 11)
            (ElementAccessExpression (mkRange 0 4)
               (Identifier (mkRange 0 1) "a")
               (Some (Identifier (mkRange 2 3) "x")))
            (Token (mkRange 5 6) EqualsToken)
            (ElementAccessExpression (mkRange 7 11)
               (Identifier (mkRange 7 8) "a")
               (Some (Identifier (mkRange 9 10) "y"))) ] ]
    (Token (mkRange 12 12) EndOfFileToken).

Definition file_elem_calls : SourceFile :=
  mkSourceFile "a[f()] = a[f()];"
    [ OtherNode (mkRange 0 16) "ExpressionStatement"
        [ BinaryExpression (mkRange 0 15)
            (ElementAccessExpression (mkRange 0 6)
               (Identifier (mkRange 0 1) "a")
               (Some
                  (OtherNode (mkRange 2 5) "CallExpression"
                     [Identifier (mkRange 2 3) "f"])))
            (Token (mkRange 7 8) EqualsToken)
            (ElementAccessExpression (mkRange 9 15)
               (Identifier (mkRange 9 10) "a")
               (Some
                  (OtherNode (mkRange 11 14) "CallExpression"
                     [Identifier (mkRange 11 12) "f"]))) ] ]
    (Token (mkRange 16 16) EndOfFileToken).

Definition file_elem_number_string : SourceFile :=
  mkSourceFile ("a[1] = a[" ++ quote ++ "1" ++ quote ++ "];")
    [ OtherNode (mkRange 0 14) "ExpressionStatement"
        [ BinaryExpression (mkRange 0 13)
            (ElementAccessExpression (mkRange 0 4)
               (Identifier (mkRange 0 1) "a")
               (Some (LiteralExpression (mkRange 2 3) NumericLiteral "1")))
            (Token (mkRange 5 6) EqualsToken)
            (ElementAccessExpression (mkRange 7 13)
               (Identifier (mkRange 7 8) "a")
               (Some (LiteralExpression (mkRange 9 12) StringLiteral "1"))) ] ]
    (Token (mkRange 14 14) EndOfFileToken).

Definition file_elem_quotes : SourceFile :=
  mkSourceFile ("a['x'] = a[" ++ quote ++ "x" ++ quote ++ "];")
    [ OtherNode (mkRange 0 16) "ExpressionStatement"
        [ BinaryExpression (mkRange 0 15)
            (ElementAccessExpression (mkRange 0 6)
               (Identifier (mkRange 0 1) "a")
               (Some (LiteralExpression (mkRange 2 5) StringLiteral "x")))
            (Token (mkRange 7 8) EqualsToken)
            (ElementAccessExpression (mkRange 9 15)
               (Identifier (mkRange 9 10) "a")
               (Some (LiteralExpression (mkRange 11 14) StringLiteral "x"))) ] ]
    (Token (mkRange 16 16) EndOfFileToken).

Definition file_ident : SourceFile :=
  mkSourceFile "x = x;"
    [ OtherNode (mkRange 0 6) "ExpressionStatement"
        [ BinaryExpression (mkRange 0 5)
            (Identifier (mkRange 0 1) "x")
            (Token (mkRange 2 3) EqualsToken)
            (Identifier (mkRange 4 5) "x") ] ]
    (Token (mkRange 6 6) EndOfFileToken).

Definition file_compound : SourceFile :=
  mkSourceFile "x += x;"
    [ OtherNode (mkRange 0 7) "ExpressionStatement"
        [ BinaryExpression (mkRange 0 6)
            (Identifier (mkRange 0 1) "x")
            (Token (mkRange 2 4) PlusEqualsToken)
            (Identifier (mkRange 5 6) "x") ] ]
    (Token (mkRange 7 7) EndOfFileToken).

Definition file_shape_mismatch : SourceFile :=
  mkSourceFile "a = {a};"
    [ OtherNode (mkRange 0 8) "ExpressionStatement"
        [ BinaryExpression (mkRange 0 7)
            (Identifier (mkRange 0 1) "a")
            (Token (mkRange 2 3) EqualsToken)
            (ObjectLiteralExpression (mkRange 4 7)
               [ ShorthandPropertyAssignment (mkRange 5 6)
                   (Identifier (mkRange 5 6) "a")
                   None ]) ] ]
    (Token (mkRange 8 8) EndOfFileToken).

Definition file_field_self : SourceFile :=
  mkSourceFile "class C { foo = this.foo; }"
    [ OtherNode (mkRange 0 27) "ClassDeclaration"
        [ Identifier (mkRange 6 7) "C";
          PropertyDeclaration (mkRange 10 25)
            []
            (Identifier (mkRange 10 13) "foo")
            None
            (Some
               (PropertyAccessExpression (mkRange 16 24)
                  (Token (mkRange 16 20) ThisKeyword)
                  (Identifier (mkRange 21 24) "foo"))) ] ]
    (Token (mkRange 27 27) EndOfFileToken).

Definition file_field_other : SourceFile :=
  mkSourceFile "class C { foo = this.bar; }"
    [ OtherNode (mkRange 0 27) "ClassDeclaration"
        [ Identifier (mkRange 6 7) "C";
          PropertyDeclaration (mkRange 10 25)
            []
            (Identifier (mkRange 10 13) "foo")
            None
            (Some
               (PropertyAccessExpression (mkRange 16 24)
                  (Token (mkRange 16 20) ThisKeyword)
                  (Identifier (mkRange 21 24) "bar"))) ] ]
    (Token (mkRange 27 27) EndOfFileToken).


(* ================================================================== *)
(** ** Vocabulary of the properties *)

(** [undefined] and [null], the two values whose members cannot be read. *)
Definition isNullish (v : JsValue) : bool :=
  match v with
  | JsUndefined | JsNull => true
  | _ => false
  end.

(** What the guards [ctx.options.props && ...] see: [Some true] when the
    property rules are enabled, [Some false] when they are disabled,
    [None] when reading the option raises. *)
Definition checkProperties (o : JsValue) : option bool :=
  match getProps o with
  | Ok p => Some (toBoolean p)
  | Throw _ => None
  end.

Definition propsTrue : JsValue := JsObject [("props", JsBoolean true)].
Definition propsFalse : JsValue := JsObject [("props", JsBoolean false)].

(** [node.kind] *)
Inductive SyntaxKind : Type :=
| TokenSyntax (k : TokenKind)
| IdentifierSyntax
| LiteralSyntax (k : LiteralKind)
| PropertyAccessExpressionSyntax
| ElementAccessExpressionSyntax
| ArrayLiteralExpressionSyntax
| SpreadElementSyntax
| ObjectLiteralExpressionSyntax
| ShorthandPropertyAssignmentSyntax
| SpreadAssignmentSyntax
| BinaryExpressionSyntax
| PropertyDeclarationSyntax
| OtherSyntax (name : string).

Definition kindOf (n : Node) : SyntaxKind :=
  match n with
  | Token _ k => TokenSyntax k
  | Identifier _ _ => IdentifierSyntax
  | LiteralExpression _ k _ => LiteralSyntax k
  | PropertyAccessExpression _ _ _ => PropertyAccessExpressionSyntax
  | ElementAccessExpression _ _ _ => ElementAccessExpressionSyntax
  | ArrayLiteralExpression _ _ => ArrayLiteralExpressionSyntax
  | SpreadElement _ _ => SpreadElementSyntax
  | ObjectLiteralExpression _ _ => ObjectLiteralExpressionSyntax
  | ShorthandPropertyAssignment _ _ _ => ShorthandPropertyAssignmentSyntax
  | SpreadAssignment _ _ => SpreadAssignmentSyntax
  | BinaryExpression _ _ _ _ => BinaryExpressionSyntax
  | PropertyDeclaration _ _ _ _ _ => PropertyDeclarationSyntax
  | OtherNode _ name _ => OtherSyntax name
  end.

Definition SyntaxKind_eqb (a b : SyntaxKind) : bool :=
  match a, b with
  | TokenSyntax k, TokenSyntax k' => TokenKind_beq k k'
  | IdentifierSyntax, IdentifierSyntax => true
  | LiteralSyntax k, LiteralSyntax k' => LiteralKind_beq k k'
  | PropertyAccessExpressionSyntax, PropertyAccessExpressionSyntax => true
  | ElementAccessExpressionSyntax, ElementAccessExpressionSyntax => true
  | ArrayLiteralExpressionSyntax, ArrayLiteralExpressionSyntax => true
  | SpreadElementSyntax, SpreadElementSyntax => true
  | ObjectLiteralExpressionSyntax, ObjectLiteralExpressionSyntax => true
  | ShorthandPropertyAssignmentSyntax, ShorthandPropertyAssignmentSyntax => true
  | SpreadAssignmentSyntax, SpreadAssignmentSyntax => true
  | BinaryExpressionSyntax, BinaryExpressionSyntax => true
  | PropertyDeclarationSyntax, PropertyDeclarationSyntax => true
  | OtherSyntax n, OtherSyntax n' => String.eqb n n'
  | _, _ => false
  end.

(** The two sides of a pair have the same shape when they are nodes of
    the same kind. *)
Definition sameKind (left right : Node) : bool :=
  SyntaxKind_eqb (kindOf left) (kindOf right).

(** No property access and no element access sits at a place of the
    left side that [doCheck] can reach: the node itself, the elements of
    an array pattern, the properties of an object pattern, the name of a
    shorthand property. *)
Fixpoint memberFree (n : Node) : bool :=
  match n with
  | PropertyAccessExpression _ _ _ | ElementAccessExpression _ _ _ => false
  | ArrayLiteralExpression _ es => forallb memberFree es
  | ObjectLiteralExpression _ ps => forallb memberFree ps
  | ShorthandPropertyAssignment _ nm _ => memberFree nm
  | _ => true
  end.

(** The pairs of elements the array rule compares, in order. *)
Fixpoint comparedPairs (ls rs : list Node) : list (Node * Node) :=
  match ls, rs with
  | l :: ls', r :: rs' =>
      (l, r) :: (if isSpreadElement r then [] else comparedPairs ls' rs')
  | _, _ => []
  end.

(** Both nodes are identifiers with equal text. *)
Definition identifiersWithEqualText (a b : Node) : Prop :=
  exists ra rb t, a = Identifier ra t /\ b = Identifier rb t.

(** Both nodes are literal tokens with equal text. *)
Definition literalsWithEqualText (a b : Node) : Prop :=
  exists ra ka rb kb t,
    a = LiteralExpression ra ka t /\ b = LiteralExpression rb kb t.

(** A source file made of one expression statement. *)
Definition singleStatement (text : string) (rs : TextRange) (e : Node)
    (re : TextRange) : SourceFile :=
  mkSourceFile text [OtherNode rs "ExpressionStatement" [e]]
               (Token re EndOfFileToken).

(** The context a run starts from. *)
Definition initialContext (sf : SourceFile) (o : JsValue) : WalkContext :=
  mkContext sf o [].

(** The parse of [a['x'] = a["y"];]. *)
Definition file_elem_distinct_keys : SourceFile :=
  mkSourceFile ("a['x'] = a[" ++ quote ++ "y" ++ quote ++ "];")
    [ OtherNode (mkRange 0 16) "ExpressionStatement"
        [ BinaryExpression (mkRange 0 15)
            (ElementAccessExpression (mkRange 0 6)
               (Identifier (mkRange 0 1) "a")
               (Some (LiteralExpression (mkRange 2 5) StringLiteral "x")))
            (Token (mkRange 7 8) EqualsToken)
            (ElementAccessExpression (mkRange 9 15)
               (Identifier (mkRange 9 10) "a")
               (Some (LiteralExpression (mkRange 11 14) StringLiteral "y"))) ] ]
    (Token (mkRange 16 16) EndOfFileToken).

(* ================================================================== *)
(** ** Vocabulary of the further properties *)

(** What [recur] does at a node before it goes on into the children
    (source lines 74-80). *)
Definition visit (node : Node) (ctx : WalkContext) : Result WalkContext :=
  ctx <- match node with
         | BinaryExpression _ l op r =>
             if hasKind EqualsToken op then doCheck (Some l) (Some r) ctx
             else Ok ctx
         | _ => Ok ctx
         end ;;
  Ok match node with
     | PropertyDeclaration _ _ _ _ (Some initializer) =>
         if isPropertySelfAssigned node then report initializer ctx else ctx
     | _ => ctx
     end.

Definition childNodes (nodes : Node -> list Node) (c : option Node) : list Node :=
  match c with
  | Some n => nodes n
  | None => []
  end.

(** A node followed by the nodes below it, parents before children and
    children in the order [ts.forEachChild] visits them. *)
Fixpoint subnodes (n : Node) : list Node :=
  n :: match n with
       | Token _ _ | Identifier _ _ | LiteralExpression _ _ _ => []
       | PropertyAccessExpression _ e nm => subnodes e ++ subnodes nm
       | ElementAccessExpression _ e a => subnodes e ++ childNodes subnodes a
       | ArrayLiteralExpression _ es => flat_map subnodes es
       | SpreadElement _ e => subnodes e
       | ObjectLiteralExpression _ ps => flat_map subnodes ps
       | ShorthandPropertyAssignment _ nm i =>
           subnodes nm ++ childNodes subnodes i
       | SpreadAssignment _ e => subnodes e
       | BinaryExpression _ l op r => subnodes l ++ subnodes op ++ subnodes r
       | PropertyDeclaration _ ms nm t i =>
           flat_map subnodes ms ++ subnodes nm
           ++ childNodes subnodes t ++ childNodes subnodes i
       | OtherNode _ _ cs => flat_map subnodes cs
       end.

(** The nodes of a source file below its root, in document order. *)
Definition allNodes (sf : SourceFile) : list Node :=
  flat_map subnodes (statements sf) ++ subnodes (endOfFileToken sf).

(** A binary expression with the plain [=] operator. *)
Definition isPlainAssignment (n : Node) : bool :=
  match n with
  | BinaryExpression _ _ op _ => hasKind EqualsToken op
  | _ => false
  end.

(** The path a property access spells: the text of the identifier it is
    rooted at, then the [.text] of the names accessed, outermost last;
    [None] when the innermost base is not an identifier. *)
Fixpoint memberChain (n : Node) : option (list (option string)) :=
  match n with
  | PropertyAccessExpression _ e nm =>
      match e with
      | PropertyAccessExpression _ _ _ =>
          option_map (fun c => c ++ [textOf nm]) (memberChain e)
      | Identifier _ t => Some [Some t; textOf nm]
      | _ => None
      end
  | _ => None
  end.

(** The kinds of node some rule of [doCheck] looks for. *)
Definition isCheckedKind (n : Node) : bool :=
  isIdentifier n || isArrayLiteralExpression n || isObjectLiteralExpression n
  || isShorthandPropertyAssignment n || isPropertyAccessExpression n
  || isElementAccessExpression n.

(** The kinds of node a finding can be anchored at. *)
Definition isReportedKind (n : Node) : bool :=
  isIdentifier n || isPropertyAccessExpression n || isElementAccessExpression n.

(** [l1] is [l2] with some elements left out. *)
Inductive Subsequence {A : Type} : list A -> list A -> Prop :=
| Subsequence_nil : Subsequence [] []
| Subsequence_skip (x : A) (l1 l2 : list A) :
    Subsequence l1 l2 -> Subsequence l1 (x :: l2)
| Subsequence_keep (x : A) (l1 l2 : list A) :
    Subsequence l1 l2 -> Subsequence (x :: l1) (x :: l2).

(** The finding [recur] registers at a field declaration that is
    initialized with itself (source lines 78-80). *)
Definition fieldFinding (sf : SourceFile) (node : Node) : list RuleFailure :=
  match node with
  | PropertyDeclaration _ _ _ _ (Some initializer) =>
      if isPropertySelfAssigned node then [failureAt sf initializer] else []
  | _ => []
  end.

(** The path spelled by the base of a property access: an identifier
    spells its text, a property access its own path. *)
Definition baseChain (e : Node) : option (list (option string)) :=
  match e with
  | PropertyAccessExpression _ _ _ => memberChain e
  | Identifier _ t => Some [Some t]
  | _ => None
  end.

(** The parse of [this.a = this.a;]. *)
Definition file_this_member : SourceFile :=
  mkSourceFile "this.a = this.a;"
    [ OtherNode (mkRange 0 16) "ExpressionStatement"
        [ BinaryExpression (mkRange 0 15)
            (PropertyAccessExpression (mkRange 0 6)
               (Token (mkRange 0 4) ThisKeyword)
               (Identifier (mkRange 5 6) "a"))
            (Token (mkRange 7 8) EqualsToken)
            (PropertyAccessExpression (mkRange 9 15)
               (Token (mkRange 9 13) ThisKeyword)
               (Identifier (mkRange 14 15) "a")) ] ]
    (Token (mkRange 16 16) EndOfFileToken).

(** A shorthand property with a default value, as [a = 1] in [{a = 1}]. *)
Definition hasDefault (n : Node) : bool :=
  match n with
  | ShorthandPropertyAssignment _ _ (Some _) => true
  | _ => false
  end.

(** The finding is the one [report] registers for some node of the given
    tree that is an identifier, a property access or an element access. *)
Definition anchored (sf : SourceFile) (nodes : list Node) (f : RuleFailure)
  : Prop :=
  exists n,
    In n nodes /\ isReportedKind n = true
    /\ f = mkFailure (getStart n) (getEnd n)
             ("variable '" ++ getText sf n ++ "' is assigned to itself.").

(** The options value of a run ([opt] in [Rule.apply]). *)
Definition optionsOf (ruleArguments : list JsValue) : JsValue :=
  match ruleArguments with
  | first :: _ => first
  | [] => propsTrue
  end.

(** The findings [visit] registers at a node when it starts without
    findings; none when it raises. *)
Definition findingsAt (sf : SourceFile) (o : JsValue) (n : Node)
  : list RuleFailure :=
  match visit n (mkContext sf o []) with
  | Ok c => failures c
  | Throw _ => []
  end.

(* ================================================================== *)
(** * Properties *)

(** ** Proof steps *)

(** Evaluates the kind tests of [doCheck] on nodes of known kinds. *)
Ltac eval_guards :=
  cbn [isSameIdentifier isIdentifier isPropertyAccessExpression
       isElementAccessExpression andb app].

(** Runs the visit of a field declaration of known shape. *)
Ltac eval_field :=
  cbn [bind forEachChild isPropertySelfAssigned isIdentifier
       hasKind textOf strictEq TokenKind_beq andb].

(** ** Unfolding equations *)

Lemma doCheckNode_eq (left right : Node) (ctx : WalkContext) :
  doCheckNode left right ctx =
  let ctx := if isSameIdentifier left right then report right ctx else ctx in
  ctx <- match left, right with
         | ArrayLiteralExpression _ ls, ArrayLiteralExpression _ rs =>
             checkElements doCheckNode ls rs ctx
         | _, _ => Ok ctx
         end ;;
  ctx <- match left, right with
         | ObjectLiteralExpression _ lps, ObjectLiteralExpression _ rps =>
             forEach (fun leftProp =>
                        forEach (fun rightProp => doCheckNode leftProp rightProp)
                                (skipn (startRight rps) rps))
                     lps ctx
         | _, _ => Ok ctx
         end ;;
  ctx <- match left, right with
         | ShorthandPropertyAssignment _ leftName None,
           ShorthandPropertyAssignment _ rightName _ =>
             doCheckNode leftName rightName ctx
         | _, _ => Ok ctx
         end ;;
  p <- getProps (options ctx) ;;
  if toBoolean p && isPropertyAccessExpression left
     && isPropertyAccessExpression right && isSameMember left right
  then Ok (report right ctx)
  else
    p <- getProps (options ctx) ;;
    if toBoolean p && isElementAccessExpression left
       && isElementAccessExpression right && isSameElementAccess left right
    then Ok (report right ctx)
    else Ok ctx.
Proof. destruct left; reflexivity. Qed.

Lemma recur_eq (node : Node) (ctx : WalkContext) :
  recur node ctx =
  ctx <- match node with
         | BinaryExpression _ l op r =>
             if hasKind EqualsToken op then doCheck (Some l) (Some r) ctx
             else Ok ctx
         | _ => Ok ctx
         end ;;
  let ctx :=
    match node with
    | PropertyDeclaration _ _ _ _ (Some initializer) =>
        if isPropertySelfAssigned node then report initializer ctx else ctx
    | _ => ctx
    end in
  forEachChild recur node ctx.
Proof. destruct node; reflexivity. Qed.

Lemma report_eq (node : Node) (sf : SourceFile) (o : JsValue)
      (fs : list RuleFailure) :
  report node (mkContext sf o fs) = mkContext sf o (fs ++ [failureAt sf node]).
Proof. reflexivity. Qed.

(** ** The stateful checker appends exactly the findings read off the tree *)

Section Refinement.
Variable sf : SourceFile.
Variable o : JsValue.
Variable p : JsValue.
Hypothesis Hprops : getProps o = Ok p.

Local Abbreviation C fs := (mkContext sf o fs).

Lemma forEach_findings (A : Type) (body : A -> WalkContext -> Result WalkContext)
      (found : A -> list RuleFailure) (xs : list A) :
  Forall (fun x => forall fs, body x (C fs) = Ok (C (fs ++ found x))) xs ->
  forall fs, forEach body xs (C fs) = Ok (C (fs ++ flat_map found xs)).
Proof.
  induction 1 as [|x xs Hx _ IH]; intros fs; simpl.
  - now rewrite app_nil_r.
  - rewrite Hx. simpl. rewrite IH. now rewrite app_assoc.
Qed.

Lemma checkElements_findings (ls : list Node) :
  Forall (fun l => forall r fs,
              doCheckNode l r (C fs)
              = Ok (C (fs ++ pairFindings sf (toBoolean p) l r))) ls ->
  forall rs fs,
    checkElements doCheckNode ls rs (C fs)
    = Ok (C (fs ++ elementFindings (pairFindings sf (toBoolean p)) ls rs)).
Proof.
  induction 1 as [|l ls Hl _ IH]; intros rs fs; simpl.
  - now rewrite app_nil_r.
  - destruct rs as [|r rs]; simpl.
    + now rewrite app_nil_r.
    + rewrite Hl. simpl. destruct (isSpreadElement r).
      * now rewrite app_nil_r.
      * rewrite IH. now rewrite app_assoc.
Qed.

Lemma pairFindings_eq (props : bool) (left right : Node) :
  pairFindings sf props left right =
  (if isSameIdentifier left right then [failureAt sf right] else [])
  ++ match left, right with
     | ArrayLiteralExpression _ ls, ArrayLiteralExpression _ rs =>
         elementFindings (pairFindings sf props) ls rs
     | _, _ => []
     end
  ++ match left, right with
     | ObjectLiteralExpression _ lps, ObjectLiteralExpression _ rps =>
         flat_map (fun leftProp =>
                     flat_map (fun rightProp =>
                                 pairFindings sf props leftProp rightProp)
                              (skipn (startRight rps) rps))
                  lps
     | _, _ => []
     end
  ++ match left, right with
     | ShorthandPropertyAssignment _ leftName None,
       ShorthandPropertyAssignment _ rightName _ =>
         pairFindings sf props leftName rightName
     | _, _ => []
     end
  ++ (if props && isPropertyAccessExpression left
         && isPropertyAccessExpression right && isSameMember left right
      then [failureAt sf right]
      else if props && isElementAccessExpression left
              && isElementAccessExpression right && isSameElementAccess left right
      then [failureAt sf right]
      else []).
Proof. destruct left; reflexivity. Qed.

(** The last two rules of [doCheck], once the options are read. *)
Lemma memberRules_findings (left right : Node) (fs : list RuleFailure) :
  (q <- getProps (options (C fs)) ;;
   if toBoolean q && isPropertyAccessExpression left
      && isPropertyAccessExpression right && isSameMember left right
   then Ok (report right (C fs))
   else
     q <- getProps (options (C fs)) ;;
     if toBoolean q && isElementAccessExpression left
        && isElementAccessExpression right && isSameElementAccess left right
     then Ok (report right (C fs))
     else Ok (C fs))
  = Ok (C (fs ++ (if toBoolean p && isPropertyAccessExpression left
                     && isPropertyAccessExpression right && isSameMember left right
                  then [failureAt sf right]
                  else if toBoolean p && isElementAccessExpression left
                          && isElementAccessExpression right
                          && isSameElementAccess left right
                  then [failureAt sf right]
                  else []))).
Proof.
  simpl options. rewrite Hprops; simpl bind.
  destruct (toBoolean p && isPropertyAccessExpression left
            && isPropertyAccessExpression right && isSameMember left right).
  - reflexivity.
  - destruct (toBoolean p && isElementAccessExpression left
              && isElementAccessExpression right && isSameElementAccess left right).
    + reflexivity.
    + now rewrite app_nil_r.
Qed.

Lemma doCheckNode_findings (left : Node) :
  forall (right : Node) (fs : list RuleFailure),
    doCheckNode left right (C fs)
    = Ok (C (fs ++ pairFindings sf (toBoolean p) left right)).
Proof.
  induction left as
      [ | | | | | rg es IHes | | rg ps IHps | rg nm ini IHnm _ | | | | ]
      using Node_induction;
    intros right fs; rewrite doCheckNode_eq, pairFindings_eq; cbv zeta;
    destruct right;
    try (destruct ini);
    (destruct (isSameIdentifier _ _); rewrite ?report_eq; cbn [bind];
     rewrite ?(checkElements_findings IHes), ?IHnm; cbn [bind];
     try (rewrite (@forEach_findings _ _
                     (fun leftProp =>
                        flat_map (pairFindings sf (toBoolean p) leftProp)
                                 (skipn (startRight properties) properties)));
          [ cbn [bind]
          | eapply Forall_impl; [ | exact IHps ];
            intros leftProp IH fs0; cbv beta;
            apply forEach_findings, Forall_forall; intros; apply IH ]);
     rewrite memberRules_findings;
     rewrite ?app_nil_r; cbn [app]; rewrite <- ?app_assoc; reflexivity).
Qed.

Lemma nodeFindings_eq (props : bool) (node : Node) :
  nodeFindings sf props node =
  match node with
  | BinaryExpression _ l op r =>
      if hasKind EqualsToken op then pairFindings sf props l r else []
  | _ => []
  end
  ++ match node with
     | PropertyDeclaration _ _ _ _ (Some initializer) =>
         if isPropertySelfAssigned node then [failureAt sf initializer] else []
     | _ => []
     end
  ++ match node with
     | Token _ _ | Identifier _ _ | LiteralExpression _ _ _ => []
     | PropertyAccessExpression _ e n =>
         nodeFindings sf props e ++ nodeFindings sf props n
     | ElementAccessExpression _ e a =>
         nodeFindings sf props e ++ childFindings (nodeFindings sf props) a
     | ArrayLiteralExpression _ es => flat_map (nodeFindings sf props) es
     | SpreadElement _ e => nodeFindings sf props e
     | ObjectLiteralExpression _ ps => flat_map (nodeFindings sf props) ps
     | ShorthandPropertyAssignment _ n i =>
         nodeFindings sf props n ++ childFindings (nodeFindings sf props) i
     | SpreadAssignment _ e => nodeFindings sf props e
     | BinaryExpression _ l op r =>
         nodeFindings sf props l ++ nodeFindings sf props op
         ++ nodeFindings sf props r
     | PropertyDeclaration _ ms n t i =>
         flat_map (nodeFindings sf props) ms ++ nodeFindings sf props n
         ++ childFindings (nodeFindings sf props) t
         ++ childFindings (nodeFindings sf props) i
     | OtherNode _ _ cs => flat_map (nodeFindings sf props) cs
     end.
Proof. destruct node; reflexivity. Qed.

Lemma visitNode_findings (c : option Node) :
  onChild (fun n => forall fs,
               recur n (C fs)
               = Ok (C (fs ++ nodeFindings sf (toBoolean p) n))) c ->
  forall fs,
    visitNode recur c (C fs)
    = Ok (C (fs ++ childFindings (nodeFindings sf (toBoolean p)) c)).
Proof.
  destruct c as [n|]; simpl; intros H fs.
  - apply H.
  - now rewrite app_nil_r.
Qed.

Lemma recur_findings (node : Node) :
  forall fs : list RuleFailure,
    recur node (C fs) = Ok (C (fs ++ nodeFindings sf (toBoolean p) node)).
Proof.
  induction node as
      [ | | | rg e nm IHe IHnm | rg e a IHe IHa | rg es IHes | rg e IHe
        | rg ps IHps | rg nm ini IHnm IHini | rg e IHe
        | rg l op r IHl IHop IHr | rg ms nm ty ini IHms IHnm IHty IHini
        | rg k cs IHcs ]
      using Node_induction;
    intros fs; rewrite recur_eq, nodeFindings_eq; cbv zeta;
    cbn [bind forEachChild app].
  - now rewrite app_nil_r.
  - now rewrite app_nil_r.
  - now rewrite app_nil_r.
  - rewrite IHe; cbn [bind]; rewrite IHnm. now rewrite <- app_assoc.
  - rewrite IHe; cbn [bind]; rewrite (visitNode_findings _ IHa).
    now rewrite <- app_assoc.
  - now rewrite (forEach_findings _ _ IHes).
  - apply IHe.
  - now rewrite (forEach_findings _ _ IHps).
  - rewrite IHnm; cbn [bind]; rewrite (visitNode_findings _ IHini).
    now rewrite <- app_assoc.
  - apply IHe.
  - assert (Hpair :
      (if hasKind EqualsToken op then doCheck (Some l) (Some r) (C fs)
       else Ok (C fs))
      = Ok (C (fs ++ (if hasKind EqualsToken op
                      then pairFindings sf (toBoolean p) l r else [])))).
    { destruct (hasKind EqualsToken op).
      - apply doCheckNode_findings.
      - now rewrite app_nil_r. }
    rewrite Hpair; cbn [bind].
    rewrite IHl; cbn [bind]; rewrite IHop; cbn [bind]; rewrite IHr.
    now rewrite <- !app_assoc.
  - assert (Hself :
      match ini with
      | Some initializer =>
          if isPropertySelfAssigned (PropertyDeclaration rg ms nm ty ini)
          then report initializer (C fs) else C fs
      | None => C fs
      end
      = C (fs ++ match ini with
                 | Some initializer =>
                     if isPropertySelfAssigned (PropertyDeclaration rg ms nm ty ini)
                     then [failureAt sf initializer] else []
                 | None => []
                 end)).
    { destruct ini as [initializer|].
      - destruct (isPropertySelfAssigned _).
        + reflexivity.
        + now rewrite app_nil_r.
      - now rewrite app_nil_r. }
    rewrite Hself.
    rewrite (forEach_findings _ _ IHms); cbn [bind].
    rewrite IHnm; cbn [bind].
    rewrite (visitNode_findings _ IHty); cbn [bind].
    rewrite (visitNode_findings _ IHini).
    now rewrite <- !app_assoc.
  - now rewrite (forEach_findings _ _ IHcs).
Qed.

Lemma walk_findings :
  walk (C []) = Ok (C (fileFindings sf (toBoolean p))).
Proof.
  unfold walk, fileFindings; simpl sourceFile.
  rewrite (@forEach_findings _ recur (nodeFindings sf (toBoolean p))).
  - cbn [bind]. rewrite recur_findings. reflexivity.
  - apply Forall_forall; intros; apply recur_findings.
Qed.

Lemma applyWithFunction_findings :
  applyWithFunction sf walk o = Ok (fileFindings sf (toBoolean p)).
Proof. unfold applyWithFunction. now rewrite walk_findings. Qed.

End Refinement.

Unset Implicit Arguments.

(** ** Reading the options *)

Lemma getProps_defined (o : JsValue) :
  isNullish o = false -> exists p, getProps o = Ok p.
Proof. destruct o; simpl; intros H; try discriminate; eauto. Qed.

Lemma checkProperties_getProps (o : JsValue) (b : bool) :
  checkProperties o = Some b -> exists p, getProps o = Ok p /\ toBoolean p = b.
Proof.
  unfold checkProperties. destruct (getProps o) as [p|e]; intros H.
  - exists p. split; [reflexivity | congruence].
  - discriminate.
Qed.

Lemma doCheckNode_run (left right : Node) (ctx : WalkContext) (p : JsValue) :
  getProps (options ctx) = Ok p ->
  doCheckNode left right ctx
  = Ok (mkContext (sourceFile ctx) (options ctx)
          (failures ctx
           ++ pairFindings (sourceFile ctx) (toBoolean p) left right)).
Proof. destruct ctx as [sf o fs]; simpl. intros H. now apply (@doCheckNode_findings sf o p H). Qed.

Lemma recur_run (node : Node) (ctx : WalkContext) (p : JsValue) :
  getProps (options ctx) = Ok p ->
  recur node ctx
  = Ok (mkContext (sourceFile ctx) (options ctx)
          (failures ctx ++ nodeFindings (sourceFile ctx) (toBoolean p) node)).
Proof. destruct ctx as [sf o fs]; simpl. intros H. now apply (@recur_findings sf o p H). Qed.

Lemma apply_default (sf : SourceFile) :
  apply [] sf = Ok (fileFindings sf true).
Proof.
  unfold apply. now rewrite (@applyWithFunction_findings sf _ (JsBoolean true)).
Qed.

Lemma apply_first (first : JsValue) (rest : list JsValue) (sf : SourceFile)
      (p : JsValue) :
  getProps first = Ok p ->
  apply (first :: rest) sf = Ok (fileFindings sf (toBoolean p)).
Proof. intros H. unfold apply. now apply (@applyWithFunction_findings sf first p H). Qed.

Lemma hasKind_EqualsToken (r : TextRange) (k : TokenKind) :
  k <> EqualsToken -> hasKind EqualsToken (Token r k) = false.
Proof. intros H. destruct k; try reflexivity. congruence. Qed.

(** Why the properties below ask for options that can be read: the first
    pair that reaches the [props] guards raises when the options value is
    [null], while a file without any plain assignment is analysed without
    reading the options at all. *)
Lemma nullish_options_raise :
  apply [JsNull] file_ident
  = Throw (TypeError "Cannot read property 'props' of null")
  /\ apply [JsNull] file_field_self
     = Ok [mkFailure 16 24 "variable 'this.foo' is assigned to itself."].
Proof. split; reflexivity. Qed.

(** ** Identifiers (rule 1) *)

(** C5: an assignment whose two sides are identifiers with the same text
    yields exactly one finding, at the right-hand identifier, whose
    message is [variable '<text>' is assigned to itself.] with the source
    text of the right-hand side for [<text>]; so does the analysis of a
    file made of that one statement, under the default options and under
    any options value given as first argument. *)
Theorem identifier_self_assignment_reported
    (x text : string) (rs rg rl ro rr re : TextRange)
    (first : JsValue) (rest : list JsValue) (ctx : WalkContext)
    (Hctx : isNullish (options ctx) = false)
    (Hfirst : isNullish first = false) :
  let assignment :=
    BinaryExpression rg (Identifier rl x) (Token ro EqualsToken) (Identifier rr x) in
  let finding (source : string) :=
    mkFailure (rangeStart rr) (rangeEnd rr)
      ("variable '" ++ jsSubstring (rangeStart rr) (rangeEnd rr) source
       ++ "' is assigned to itself.") in
  recur assignment ctx
  = Ok (mkContext (sourceFile ctx) (options ctx)
          (failures ctx ++ [finding (sourceText (sourceFile ctx))]))
  /\ apply [] (singleStatement text rs assignment re) = Ok [finding text]
  /\ apply (first :: rest) (singleStatement text rs assignment re)
     = Ok [finding text]
  /\ apply [] file_ident
     = Ok [mkFailure 4 5 "variable 'x' is assigned to itself."].
Proof.
  intros assignment finding.
  assert (Hfound : forall sf b,
             nodeFindings sf b assignment = [finding (sourceText sf)]).
  { intros sf b. unfold assignment. simpl.
    unfold isSameIdentifier. simpl. rewrite String.eqb_refl. simpl.
    rewrite !andb_false_r. reflexivity. }
  destruct (getProps_defined _ Hctx) as [p Hp].
  destruct (getProps_defined _ Hfirst) as [q Hq].
  repeat split.
  - rewrite (recur_run _ _ _ Hp), Hfound. reflexivity.
  - rewrite apply_default. unfold fileFindings, singleStatement.
    cbn [statements endOfFileToken flat_map].
    rewrite (nodeFindings_eq _ _ (OtherNode _ _ _)). cbn [app flat_map].
    rewrite Hfound. reflexivity.
  - rewrite (apply_first _ rest _ _ Hq). unfold fileFindings, singleStatement.
    cbn [statements endOfFileToken flat_map].
    rewrite (nodeFindings_eq _ _ (OtherNode _ _ _)). cbn [app flat_map].
    rewrite Hfound. reflexivity.
Qed.

Lemma identifier_self_assignment_reported_witness :
  isNullish (options (initialContext file_ident propsTrue)) = false
  /\ isNullish propsFalse = false
  /\ recur (BinaryExpression (mkRange 0 5) (Identifier (mkRange 0 1) "x")
              (Token (mkRange 2 3) EqualsToken) (Identifier (mkRange 4 5) "x"))
           (initialContext file_ident propsTrue)
     = Ok (mkContext file_ident propsTrue
             [mkFailure 4 5 "variable 'x' is assigned to itself."]).
Proof.
  split; [reflexivity | split; [reflexivity | ]].
  exact (proj1 (identifier_self_assignment_reported
                  "x" "x = x;" (mkRange 0 6) (mkRange 0 5) (mkRange 0 1)
                  (mkRange 2 3) (mkRange 4 5) (mkRange 6 6)
                  propsFalse [] (initialContext file_ident propsTrue)
                  eq_refl eq_refl)).
Defined.

(** ** Operators other than [=] *)

(** C7: a binary expression whose operator is the plain [=] is handed
    to the pairwise check before the walk goes on into its operands; one
    whose operator is any other token is not, the walk only goes on into
    its operands; in particular [x op= x;] yields no finding for every
    identifier [x] and every compound assignment operator, whatever the
    rule arguments. *)
Theorem compound_assignment_not_checked
    (k : TokenKind) (x text : string) (rs rg rl ro rr re : TextRange)
    (l r : Node) (ruleArguments : list JsValue) (ctx : WalkContext)
    (Hk : k <> EqualsToken) :
  recur (BinaryExpression rg l (Token ro EqualsToken) r) ctx
  = (ctx0 <- doCheck (Some l) (Some r) ctx ;;
     ctx1 <- recur l ctx0 ;; recur r ctx1)
  /\ recur (BinaryExpression rg l (Token ro k) r) ctx
     = (ctx1 <- recur l ctx ;; recur r ctx1)
  /\ apply ruleArguments
       (singleStatement text rs
          (BinaryExpression rg (Identifier rl x) (Token ro k) (Identifier rr x))
          re)
     = Ok []
  /\ apply [] file_compound = Ok [].
Proof.
  assert (Hrecur : forall l' r' c,
             recur (BinaryExpression rg l' (Token ro k) r') c
             = (ctx1 <- recur l' c ;; recur r' ctx1)).
  { intros l' r' c. rewrite recur_eq. rewrite (hasKind_EqualsToken ro k Hk).
    cbn [bind forEachChild]. destruct (recur l' c); reflexivity. }
  split.
  { rewrite recur_eq. cbn [hasKind TokenKind_beq].
    destruct (doCheck (Some l) (Some r) ctx) as [ctx0|e]; [ | reflexivity ].
    cbn [bind forEachChild]. destruct (recur l ctx0); reflexivity. }
  split; [apply Hrecur | split; [ | reflexivity]].
  unfold apply, applyWithFunction, walk, singleStatement.
  cbn [sourceFile statements endOfFileToken forEach].
  rewrite (recur_eq (OtherNode _ _ _)). cbn [bind forEachChild forEach].
  rewrite Hrecur. reflexivity.
Qed.

Lemma compound_assignment_not_checked_witness :
  PlusEqualsToken <> EqualsToken
  /\ apply [JsNull]
       (singleStatement "x += x;" (mkRange 0 7)
          (BinaryExpression (mkRange 0 6) (Identifier (mkRange 0 1) "x")
             (Token (mkRange 2 4) PlusEqualsToken) (Identifier (mkRange 5 6) "x"))
          (mkRange 7 7))
     = Ok [].
Proof.
  assert (Hk : PlusEqualsToken <> EqualsToken) by discriminate.
  split; [exact Hk | ].
  exact (proj1 (proj2 (proj2 (compound_assignment_not_checked
                         PlusEqualsToken "x" "x += x;" (mkRange 0 7)
                         (mkRange 0 6) (mkRange 0 1) (mkRange 2 4)
                         (mkRange 5 6) (mkRange 7 7)
                         (Identifier (mkRange 0 1) "x")
                         (Identifier (mkRange 5 6) "x")
                         [JsNull] (initialContext file_compound JsNull) Hk)))).
Defined.

(** ** Field initializers *)

(** C6: a field [foo] initialized with [this.foo] is a self-assigned
    property: the walk registers one finding at the initializer and then
    only goes on into the modifiers and the type of the declaration, so
    a plain declaration yields exactly that finding; a field [foo]
    initialized with [this.bar], [bar] another name, registers nothing.
    The options are not consulted. *)
Theorem field_initialized_with_itself
    (foo bar : string) (rg rn ri rt rf : TextRange)
    (ms : list Node) (ty : option Node) (ctx : WalkContext)
    (Hbar : foo <> bar) :
  let initializer (name : string) :=
    PropertyAccessExpression ri (Token rt ThisKeyword) (Identifier rf name) in
  let field (name : string) :=
    PropertyDeclaration rg ms (Identifier rn foo) ty (Some (initializer name)) in
  let plain (name : string) :=
    PropertyDeclaration rg [] (Identifier rn foo) None (Some (initializer name)) in
  isPropertySelfAssigned (field foo) = true
  /\ isPropertySelfAssigned (field bar) = false
  /\ recur (field foo) ctx
     = (ctx1 <- forEach recur ms (report (initializer foo) ctx) ;;
        visitNode recur ty ctx1)
  /\ recur (field bar) ctx
     = (ctx1 <- forEach recur ms ctx ;; visitNode recur ty ctx1)
  /\ recur (plain foo) ctx
     = Ok (mkContext (sourceFile ctx) (options ctx)
             (failures ctx
              ++ [mkFailure (rangeStart ri) (rangeEnd ri)
                    ("variable '"
                     ++ jsSubstring (rangeStart ri) (rangeEnd ri)
                          (sourceText (sourceFile ctx))
                     ++ "' is assigned to itself.")]))
  /\ recur (plain bar) ctx = Ok ctx
  /\ apply [] file_field_self
     = Ok [mkFailure 16 24 "variable 'this.foo' is assigned to itself."]
  /\ apply [] file_field_other = Ok [].
Proof.
  intros initializer field plain.
  assert (Hne : String.eqb foo bar = false) by now apply String.eqb_neq.
  assert (Hwalk : forall name c,
             (s <- forEach recur ms c ;;
              s <- recur (Identifier rn foo) s ;;
              s <- visitNode recur ty s ;;
              visitNode recur (Some (initializer name)) s)
             = (ctx1 <- forEach recur ms c ;; visitNode recur ty ctx1)).
  { intros name c. destruct (forEach recur ms c) as [c1|e]; [ | reflexivity ].
    cbn [bind]. rewrite (recur_eq (Identifier rn foo)). cbn [bind forEachChild].
    destruct (visitNode recur ty c1) as [c2|e]; reflexivity. }
  repeat split.
  - simpl. now rewrite String.eqb_refl.
  - simpl. now rewrite Hne.
  - unfold field. rewrite recur_eq.
    unfold initializer; eval_field.
    rewrite String.eqb_refl. apply Hwalk.
  - unfold field. rewrite recur_eq.
    unfold initializer; eval_field.
    rewrite Hne. apply Hwalk.
  - unfold plain, initializer. rewrite recur_eq.
    eval_field.
    rewrite String.eqb_refl. reflexivity.
  - unfold plain, initializer. rewrite recur_eq.
    eval_field.
    rewrite Hne. reflexivity.
Qed.

Lemma field_initialized_with_itself_witness :
  "foo" <> "bar"
  /\ recur (PropertyDeclaration (mkRange 10 25) [] (Identifier (mkRange 10 13) "foo")
              None
              (Some (PropertyAccessExpression (mkRange 16 24)
                       (Token (mkRange 16 20) ThisKeyword)
                       (Identifier (mkRange 21 24) "bar"))))
           (initialContext file_field_other propsTrue)
     = Ok (initialContext file_field_other propsTrue).
Proof.
  assert (Hbar : "foo" <> "bar") by discriminate.
  split; [exact Hbar | ].
  exact (proj1 (proj2 (proj2 (proj2 (proj2 (proj2
           (field_initialized_with_itself
              "foo" "bar" (mkRange 10 25) (mkRange 10 13) (mkRange 16 24)
              (mkRange 16 20) (mkRange 21 24) [] None
              (initialContext file_field_other propsTrue) Hbar))))))).
Defined.

(** ** Absent sides and mismatched shapes *)

Lemma pairFindings_mismatch (sf : SourceFile) (b : bool) (left right : Node) :
  sameKind left right = false -> pairFindings sf b left right = [].
Proof.
  intros H. rewrite pairFindings_eq.
  destruct left, right; try discriminate H;
    eval_guards;
    rewrite ?andb_false_r; try reflexivity;
    destruct objectAssignmentInitializer; reflexivity.
Qed.

(** C8: when a side is absent [doCheck] returns the context unchanged;
    when the options can be read it always returns, without raising, a
    context that extends the one it was given, and so does the whole
    run; and a pair whose sides are nodes of different kinds leaves the
    context unchanged, as in [a = {a};], which yields no finding. *)
Theorem doCheck_silent_on_degenerate_pairs :
  (forall (side : option Node) (ctx : WalkContext),
      doCheck None side ctx = Ok ctx /\ doCheck side None ctx = Ok ctx)
  /\ (forall (left right : option Node) (ctx : WalkContext),
         isNullish (options ctx) = false ->
         exists found,
           doCheck left right ctx
           = Ok (mkContext (sourceFile ctx) (options ctx) (failures ctx ++ found)))
  /\ (forall (left right : Node) (ctx : WalkContext),
         isNullish (options ctx) = false ->
         sameKind left right = false ->
         doCheck (Some left) (Some right) ctx = Ok ctx)
  /\ (forall (ruleArguments : list JsValue) (sf : SourceFile),
         match ruleArguments with
         | first :: _ => isNullish first = false
         | [] => True
         end ->
         exists found, apply ruleArguments sf = Ok found)
  /\ apply [] file_shape_mismatch = Ok [].
Proof.
  split; [ | split; [ | split; [ | split ] ]].
  - intros side ctx. split; [reflexivity | now destruct side].
  - intros left right ctx Hctx.
    destruct (getProps_defined _ Hctx) as [p Hp].
    destruct left as [l|], right as [r|]; simpl;
      try (exists []; rewrite app_nil_r; now destruct ctx).
    eexists. now apply (doCheckNode_run l r ctx p).
  - intros left right ctx Hctx Hkind.
    destruct (getProps_defined _ Hctx) as [p Hp]. simpl.
    rewrite (doCheckNode_run left right ctx p Hp).
    rewrite (pairFindings_mismatch _ _ left right Hkind), app_nil_r.
    now destruct ctx.
  - intros [|first rest] sf Hargs.
    + eexists. apply apply_default.
    + destruct (getProps_defined _ Hargs) as [p Hp].
      eexists. exact (apply_first first rest sf p Hp).
  - reflexivity.
Qed.

Lemma doCheck_silent_on_degenerate_pairs_witness :
  let a := Identifier (mkRange 0 1) "a" in
  let object :=
    ObjectLiteralExpression (mkRange 4 7)
      [ShorthandPropertyAssignment (mkRange 5 6) (Identifier (mkRange 5 6) "a") None] in
  let ctx := initialContext file_shape_mismatch propsTrue in
  isNullish (options ctx) = false
  /\ sameKind a object = false
  /\ doCheck (Some a) (Some object) ctx = Ok ctx.
Proof.
  intros a object ctx.
  split; [reflexivity | split; [reflexivity | ]].
  exact (proj1 (proj2 (proj2 doCheck_silent_on_degenerate_pairs))
           a object ctx eq_refl eq_refl).
Defined.

(** ** Object patterns (rule 3) *)

Lemma scanSpread_spec (props : list Node) (i : nat) :
  (scanSpread props i = 0
   /\ forall j q, j < i -> nth_error props j = Some q ->
                  isSpreadAssignment q = false)
  \/ (exists j q,
         scanSpread props i = S j /\ j < i
         /\ nth_error props j = Some q /\ isSpreadAssignment q = true
         /\ forall j' q', j < j' < i -> nth_error props j' = Some q' ->
                          isSpreadAssignment q' = false).
Proof.
  induction i as [|i IH]; simpl.
  - left. split; [reflexivity | intros j q Hj; lia].
  - destruct (nth_error props i) as [q|] eqn:Hq.
    + destruct (isSpreadAssignment q) eqn:Hs.
      * right. exists i, q. repeat split; auto. intros j' q' Hj'. lia.
      * destruct IH as [[H0 Hno] | (j & q0 & Hj & Hlt & Hn & Hsp & Hafter)].
        -- left. split; [exact H0 | ].
           intros j q' Hj Hn. destruct (Nat.eq_dec j i) as [->|Hne].
           ++ congruence.
           ++ apply (Hno j); [lia | exact Hn].
        -- right. exists j, q0. repeat split; auto.
           intros j' q' Hj' Hn'. destruct (Nat.eq_dec j' i) as [->|Hne].
           ++ congruence.
           ++ apply (Hafter j'); [lia | exact Hn'].
    + destruct IH as [[H0 Hno] | (j & q0 & Hj & Hlt & Hn & Hsp & Hafter)].
      * left. split; [exact H0 | ].
        intros j q' Hj Hn. destruct (Nat.eq_dec j i) as [->|Hne].
        -- congruence.
        -- apply (Hno j); [lia | exact Hn].
      * right. exists j, q0. repeat split; auto.
        intros j' q' Hj' Hn'. destruct (Nat.eq_dec j' i) as [->|Hne].
        -- congruence.
        -- apply (Hafter j'); [lia | exact Hn'].
Qed.

Lemma startRight_without_spread (props : list Node) :
  (forall q, In q props -> isSpreadAssignment q = false) ->
  startRight props = 0.
Proof.
  intros Hnone. unfold startRight.
  destruct (scanSpread_spec props (length props))
    as [[H0 _] | (j & q & _ & _ & Hn & Hsp & _)].
  - exact H0.
  - apply nth_error_In in Hn. rewrite (Hnone q Hn) in Hsp. discriminate.
Qed.

Lemma startRight_after_last_spread (props : list Node) (i : nat) (q : Node) :
  nth_error props i = Some q ->
  isSpreadAssignment q = true ->
  (forall j q', i < j -> nth_error props j = Some q' ->
                isSpreadAssignment q' = false) ->
  startRight props = S i.
Proof.
  intros Hn Hsp Hlast. unfold startRight.
  assert (Hi : i < length props) by (apply nth_error_Some; congruence).
  destruct (scanSpread_spec props (length props))
    as [[_ Hno] | (j & q0 & Hj & Hlt & Hn0 & Hsp0 & Hafter)].
  - rewrite (Hno i q Hi Hn) in Hsp. discriminate.
  - rewrite Hj. f_equal.
    destruct (Nat.lt_trichotomy i j) as [Hlt' | [Heq | Hgt]].
    + rewrite (Hlast j q0 Hlt' Hn0) in Hsp0. discriminate.
    + now subst.
    + rewrite (Hafter i q (conj Hgt Hi) Hn) in Hsp. discriminate.
Qed.

(** C1: for two object literals, [startRight] is 0 when the right side
    has no spread property and one more than the index of its last
    spread property otherwise; the check is the check of every left
    property against every right property from index [startRight] on,
    left properties outermost; so [({a, b} = {a, ...x, b});] yields the
    one finding for [b] and [({a, b} = {...x, a, b});] yields two. *)
Theorem object_patterns_compared_after_last_spread :
  (forall rps : list Node,
      (forall q, In q rps -> isSpreadAssignment q = false) ->
      startRight rps = 0)
  /\ (forall (rps : list Node) (i : nat) (q : Node),
         nth_error rps i = Some q ->
         isSpreadAssignment q = true ->
         (forall j q', i < j -> nth_error rps j = Some q' ->
                       isSpreadAssignment q' = false) ->
         startRight rps = S i)
  /\ (forall (rl rr : TextRange) (lps rps : list Node) (ctx : WalkContext),
         isNullish (options ctx) = false ->
         doCheck (Some (ObjectLiteralExpression rl lps))
                 (Some (ObjectLiteralExpression rr rps)) ctx
         = forEach (fun leftProp =>
                      forEach (fun rightProp =>
                                 doCheck (Some leftProp) (Some rightProp))
                              (skipn (startRight rps) rps))
                   lps ctx)
  /\ apply [] file_obj_spread_middle
     = Ok [mkFailure 20 21 "variable 'b' is assigned to itself."]
  /\ apply [] file_obj_spread_first
     = Ok [mkFailure 17 18 "variable 'a' is assigned to itself.";
           mkFailure 20 21 "variable 'b' is assigned to itself."].
Proof.
  split; [exact startRight_without_spread | ].
  split; [exact startRight_after_last_spread | ].
  split; [ | split; reflexivity].
  intros rl rr lps rps [sf o fs] Hctx. simpl in Hctx.
  destruct (getProps_defined _ Hctx) as [p Hp].
  cbn [doCheck].
  rewrite (@doCheckNode_findings sf o p Hp), pairFindings_eq.
  eval_guards.
  rewrite !andb_false_r, app_nil_r.
  symmetry.
  apply (@forEach_findings sf o Node
           (fun leftProp =>
              forEach (fun rightProp => doCheckNode leftProp rightProp)
                      (skipn (startRight rps) rps))
           (fun leftProp =>
              flat_map (pairFindings sf (toBoolean p) leftProp)
                       (skipn (startRight rps) rps))).
  apply Forall_forall. intros leftProp _ fs0.
  apply (@forEach_findings sf o Node (doCheckNode leftProp)
           (pairFindings sf (toBoolean p) leftProp)).
  apply Forall_forall. intros rightProp _ fs1.
  apply (@doCheckNode_findings sf o p Hp).
Qed.

Lemma object_patterns_compared_after_last_spread_witness :
  let a1 := ShorthandPropertyAssignment (mkRange 2 3) (Identifier (mkRange 2 3) "a") None in
  let b1 := ShorthandPropertyAssignment (mkRange 5 6) (Identifier (mkRange 5 6) "b") None in
  let a2 := ShorthandPropertyAssignment (mkRange 11 12) (Identifier (mkRange 11 12) "a") None in
  let x := SpreadAssignment (mkRange 14 18) (Identifier (mkRange 17 18) "x") in
  let b2 := ShorthandPropertyAssignment (mkRange 20 21) (Identifier (mkRange 20 21) "b") None in
  let ctx := initialContext file_obj_spread_middle propsTrue in
  isNullish (options ctx) = false
  /\ startRight [a2; x; b2] = 2
  /\ doCheck (Some (ObjectLiteralExpression (mkRange 1 7) [a1; b1]))
             (Some (ObjectLiteralExpression (mkRange 10 22) [a2; x; b2])) ctx
     = forEach (fun leftProp =>
                  forEach (fun rightProp => doCheck (Some leftProp) (Some rightProp))
                          [b2])
               [a1; b1] ctx.
Proof.
  intros a1 b1 a2 x b2 ctx.
  split; [reflexivity | split; [reflexivity | ]].
  exact (proj1 (proj2 (proj2 object_patterns_compared_after_last_spread))
           (mkRange 1 7) (mkRange 10 22) [a1; b1] [a2; x; b2] ctx eq_refl).
Defined.

(** ** Array patterns (rule 2) *)

Lemma comparedPairs_nth (ls rs : list Node) :
  forall (i : nat) (l r : Node),
    nth_error (comparedPairs ls rs) i = Some (l, r)
    <-> (nth_error ls i = Some l /\ nth_error rs i = Some r
         /\ forall j q, j < i -> nth_error rs j = Some q ->
                        isSpreadElement q = false).
Proof.
  revert rs. induction ls as [|l0 ls IH]; intros rs i l r.
  - simpl. destruct i; simpl; split; intros H;
      try discriminate; destruct H as [H _]; discriminate.
  - destruct rs as [|r0 rs].
    + simpl. destruct i; simpl; split; intros H;
        try discriminate; destruct H as [_ [H _]]; discriminate.
    + destruct i as [|i]; simpl.
      * split.
        -- intros H. inversion H; subst. repeat split. intros j q Hj. lia.
        -- intros (Hl & Hr & _). congruence.
      * destruct (isSpreadElement r0) eqn:Hs.
        -- split.
           ++ destruct i; discriminate.
           ++ intros (_ & _ & Hno).
              specialize (Hno 0 r0 (Nat.lt_0_succ i) eq_refl). congruence.
        -- rewrite IH. split.
           ++ intros (Hl & Hr & Hno). repeat split; auto.
              intros [|j] q Hj Hq; simpl in Hq.
              ** congruence.
              ** apply (Hno j); [lia | exact Hq].
           ++ intros (Hl & Hr & Hno). repeat split; auto.
              intros j q Hj Hq. apply (Hno (S j)); [lia | exact Hq].
Qed.

Lemma checkElements_comparedPairs (ls rs : list Node) :
  forall ctx : WalkContext,
    checkElements doCheckNode ls rs ctx
    = forEach (fun lr => doCheck (Some (fst lr)) (Some (snd lr)))
              (comparedPairs ls rs) ctx.
Proof.
  revert rs. induction ls as [|l ls IH]; intros rs ctx.
  - reflexivity.
  - destruct rs as [|r rs]; [reflexivity | ].
    simpl. destruct (doCheckNode l r ctx) as [ctx1|e]; simpl; [ | reflexivity].
    destruct (isSpreadElement r); [reflexivity | apply IH].
Qed.

Lemma recur_array (rg : TextRange) (es : list Node) (ctx : WalkContext) :
  recur (ArrayLiteralExpression rg es) ctx = forEach recur es ctx.
Proof. rewrite recur_eq. reflexivity. Qed.

(** C2: for two array literals the check is the check, in order, of the
    pairs of elements at equal indices that exist on both sides and have
    no spread element at a smaller index on the right; the walk then
    still visits every element of both sides; so [[a, b] = [a, b];]
    yields two findings, [[a, b] = [a, ...rest];] only the one for [a],
    and in [[a, b] = [...x, b = b];] the nested assignment is found. *)
Theorem array_patterns_compared_pairwise :
  (forall (rl rr : TextRange) (ls rs : list Node) (ctx : WalkContext),
      isNullish (options ctx) = false ->
      exists pairs : list (Node * Node),
        (forall (i : nat) (l r : Node),
            nth_error pairs i = Some (l, r)
            <-> (nth_error ls i = Some l /\ nth_error rs i = Some r
                 /\ forall j q, j < i -> nth_error rs j = Some q ->
                                isSpreadElement q = false))
        /\ doCheck (Some (ArrayLiteralExpression rl ls))
                   (Some (ArrayLiteralExpression rr rs)) ctx
           = forEach (fun lr => doCheck (Some (fst lr)) (Some (snd lr)))
                     pairs ctx)
  /\ (forall (rg rl ro rr : TextRange) (ls rs : list Node) (ctx : WalkContext),
         recur (BinaryExpression rg (ArrayLiteralExpression rl ls)
                  (Token ro EqualsToken) (ArrayLiteralExpression rr rs)) ctx
         = (ctx1 <- doCheck (Some (ArrayLiteralExpression rl ls))
                            (Some (ArrayLiteralExpression rr rs)) ctx ;;
            ctx2 <- forEach recur ls ctx1 ;;
            forEach recur rs ctx2))
  /\ apply [] file_arr_plain
     = Ok [mkFailure 10 11 "variable 'a' is assigned to itself.";
           mkFailure 13 14 "variable 'b' is assigned to itself."]
  /\ apply [] file_arr_rest
     = Ok [mkFailure 10 11 "variable 'a' is assigned to itself."]
  /\ apply [] file_arr_nested
     = Ok [mkFailure 20 21 "variable 'b' is assigned to itself."].
Proof.
  split; [ | split; [ | repeat split ]].
  - intros rl rr ls rs [sf o fs] Hctx. simpl in Hctx.
    destruct (getProps_defined _ Hctx) as [p Hp].
    exists (comparedPairs ls rs). split; [apply comparedPairs_nth | ].
    rewrite <- checkElements_comparedPairs.
    cbn [doCheck].
    rewrite (@doCheckNode_findings sf o p Hp), pairFindings_eq.
    eval_guards.
    rewrite !andb_false_r, app_nil_r.
    symmetry. apply (@checkElements_findings sf o p).
    apply Forall_forall. intros l _ r fs0.
    apply (@doCheckNode_findings sf o p Hp).
  - intros rg rl ro rr ls rs ctx. rewrite recur_eq.
    cbn [hasKind TokenKind_beq].
    destruct (doCheck _ _ ctx) as [ctx1|e]; [ | reflexivity].
    cbn [bind forEachChild]. rewrite recur_array.
    destruct (forEach recur ls ctx1) as [ctx2|e]; [ | reflexivity].
    cbn [bind]. rewrite recur_eq. cbn [bind forEachChild].
    apply recur_array.
Qed.

Lemma array_patterns_compared_pairwise_witness :
  let a1 := Identifier (mkRange 1 2) "a" in
  let b1 := Identifier (mkRange 4 5) "b" in
  let a2 := Identifier (mkRange 10 11) "a" in
  let rest := SpreadElement (mkRange 13 20) (Identifier (mkRange 16 20) "rest") in
  let ctx := initialContext file_arr_rest propsTrue in
  isNullish (options ctx) = false
  /\ exists pairs : list (Node * Node),
      (forall (i : nat) (l r : Node),
          nth_error pairs i = Some (l, r)
          <-> (nth_error [a1; b1] i = Some l /\ nth_error [a2; rest] i = Some r
               /\ forall j q, j < i -> nth_error [a2; rest] j = Some q ->
                              isSpreadElement q = false))
      /\ doCheck (Some (ArrayLiteralExpression (mkRange 0 6) [a1; b1]))
                 (Some (ArrayLiteralExpression (mkRange 9 21) [a2; rest])) ctx
         = forEach (fun lr => doCheck (Some (fst lr)) (Some (snd lr))) pairs ctx.
Proof.
  intros a1 b1 a2 rest ctx.
  split; [reflexivity | ].
  exact (proj1 array_patterns_compared_pairwise
           (mkRange 0 6) (mkRange 9 21) [a1; b1] [a2; rest] ctx eq_refl).
Defined.

(** ** Element access (rule 6) *)

Lemma isSameIdentifier_spec (a b : Node) :
  isSameIdentifier a b = true <-> identifiersWithEqualText a b.
Proof.
  unfold isSameIdentifier, identifiersWithEqualText. split.
  - destruct a; try discriminate. destruct b; try discriminate. simpl.
    intros H. apply String.eqb_eq in H. subst. eauto.
  - intros (ra & rb & t & -> & ->). simpl. apply String.eqb_refl.
Qed.

Lemma literal_keys_spec (a b : Node) :
  isLiteralExpression a && isLiteralExpression b
  && strictEq (textOf a) (textOf b) = true
  <-> literalsWithEqualText a b.
Proof.
  unfold literalsWithEqualText. split.
  - destruct a; try discriminate. destruct b; try discriminate. simpl.
    intros H. apply String.eqb_eq in H. subst. do 5 eexists. eauto.
  - intros (ra & ka & rb & kb & t & -> & ->). simpl. apply String.eqb_refl.
Qed.

Lemma isSameElementAccess_spec (rl rr : TextRange) (base1 base2 k1 k2 : Node) :
  isSameElementAccess (ElementAccessExpression rl base1 (Some k1))
                      (ElementAccessExpression rr base2 (Some k2)) = true
  <-> (identifiersWithEqualText base1 base2
       /\ (identifiersWithEqualText k1 k2 \/ literalsWithEqualText k1 k2)).
Proof.
  cbn [isSameElementAccess]. rewrite <- isSameIdentifier_spec.
  destruct (isSameIdentifier base1 base2).
  - rewrite <- (isSameIdentifier_spec k1 k2), <- literal_keys_spec.
    unfold isSameIdentifier.
    destruct (isIdentifier k1 && isIdentifier k2) eqn:Hid.
    + cbn [andb]. split; [intros H; auto | ].
      intros (_ & [H | H]); [exact H | ].
      destruct k1; try discriminate Hid. discriminate H.
    + cbn [andb].
      destruct (isLiteralExpression k1 && isLiteralExpression k2); cbn [andb].
      * split; [intros H; auto | ].
        intros (_ & [H | H]); [discriminate H | exact H].
      * split; [discriminate | ].
        intros (_ & [H | H]); discriminate H.
  - split; [discriminate | ]. intros (H & _). discriminate H.
Qed.

Lemma doCheck_element_access (left right : Node) (ctx : WalkContext) :
  checkProperties (options ctx) = Some true ->
  isElementAccessExpression left = true ->
  isElementAccessExpression right = true ->
  doCheck (Some left) (Some right) ctx
  = Ok (if isSameElementAccess left right then report right ctx else ctx).
Proof.
  intros Hprops Hl Hr.
  destruct (checkProperties_getProps _ _ Hprops) as (p & Hp & Hb).
  cbn [doCheck]. rewrite (doCheckNode_run left right ctx p Hp), Hb.
  rewrite pairFindings_eq.
  destruct left; try discriminate Hl. destruct right; try discriminate Hr.
  eval_guards.
  destruct ctx as [sf o fs].
  destruct (isSameElementAccess _ _); [reflexivity | ].
  cbn [sourceFile options failures]. now rewrite app_nil_r.
Qed.

(** C4: with the property rules enabled, the check of [base1[k1]]
    against [base2[k2]] registers a finding at the right side exactly
    when the bases are identifiers with equal text and the keys are two
    identifiers with equal text or two literals with equal text, and
    changes nothing otherwise; [a["x"] = a["x"];] yields one finding,
    [a[x] = a[y];] and [a[f()] = a[f()];] none. *)
Theorem element_access_self_assignment :
  (forall (rl rr : TextRange) (base1 base2 k1 k2 : Node) (ctx : WalkContext),
      checkProperties (options ctx) = Some true ->
      let left := ElementAccessExpression rl base1 (Some k1) in
      let right := ElementAccessExpression rr base2 (Some k2) in
      let same :=
        identifiersWithEqualText base1 base2
        /\ (identifiersWithEqualText k1 k2 \/ literalsWithEqualText k1 k2) in
      (same -> doCheck (Some left) (Some right) ctx = Ok (report right ctx))
      /\ (~ same -> doCheck (Some left) (Some right) ctx = Ok ctx))
  /\ apply [propsTrue] file_elem_string
     = Ok [mkFailure 9 15
             ("variable 'a[" ++ quote ++ "x" ++ quote ++ "]' is assigned to itself.")]
  /\ apply [propsTrue] file_elem_idents = Ok []
  /\ apply [propsTrue] file_elem_calls = Ok [].
Proof.
  split; [ | repeat split ].
  intros rl rr base1 base2 k1 k2 ctx Hprops left right same.
  pose proof (isSameElementAccess_spec rl rr base1 base2 k1 k2) as Hspec.
  fold left right same in Hspec.
  rewrite (doCheck_element_access left right ctx Hprops eq_refl eq_refl).
  destruct (isSameElementAccess left right).
  - split; [reflexivity | ]. intros Hn. exfalso. apply Hn, Hspec. reflexivity.
  - split; [ | reflexivity ]. intros Hs. apply Hspec in Hs. discriminate.
Qed.

Lemma element_access_self_assignment_witness :
  let ctx := initialContext file_elem_idents propsTrue in
  let a1 := Identifier (mkRange 0 1) "a" in
  let a2 := Identifier (mkRange 7 8) "a" in
  let x1 := Identifier (mkRange 2 3) "x" in
  let x2 := Identifier (mkRange 9 10) "x" in
  checkProperties (options ctx) = Some true
  /\ (identifiersWithEqualText a1 a2
      /\ (identifiersWithEqualText x1 x2 \/ literalsWithEqualText x1 x2))
  /\ doCheck (Some (ElementAccessExpression (mkRange 0 4) a1 (Some x1)))
             (Some (ElementAccessExpression (mkRange 7 11) a2 (Some x2))) ctx
     = Ok (report (ElementAccessExpression (mkRange 7 11) a2 (Some x2)) ctx).
Proof.
  intros ctx a1 a2 x1 x2.
  assert (Hsame : identifiersWithEqualText a1 a2
                  /\ (identifiersWithEqualText x1 x2 \/ literalsWithEqualText x1 x2)).
  { split; [ | left ].
    - exists (mkRange 0 1), (mkRange 7 8), "a". split; reflexivity.
    - exists (mkRange 2 3), (mkRange 9 10), "x". split; reflexivity. }
  split; [reflexivity | split; [exact Hsame | ]].
  exact (proj1 (proj1 element_access_self_assignment
                  (mkRange 0 4) (mkRange 7 11) a1 a2 x1 x2 ctx eq_refl)
           Hsame).
Defined.

(** C10: the literal keys of two element accesses are compared by the
    text the parser stores for them, and by nothing else: whatever the
    kinds of the two literals and whatever their source ranges (hence
    their source text), the comparison of two accesses on the same
    identifier answers what the equality of the two stored texts
    answers; with the property rules enabled the pair yields a finding
    at the right side when the stored texts are equal and leaves the
    context unchanged when they differ.  So [a['x'] = a["x"];] and
    [a[1] = a["1"];] yield one finding each, and [a['x'] = a["y"];]
    yields none. *)
Theorem literal_keys_compared_by_cooked_text
    (rl rr ra1 ra2 rk1 rk2 : TextRange) (a t t' : string)
    (kind1 kind2 : LiteralKind) (ctx : WalkContext)
    (Hprops : checkProperties (options ctx) = Some true) :
  let left :=
    ElementAccessExpression rl (Identifier ra1 a)
      (Some (LiteralExpression rk1 kind1 t)) in
  let right :=
    ElementAccessExpression rr (Identifier ra2 a)
      (Some (LiteralExpression rk2 kind2 t)) in
  let other :=
    ElementAccessExpression rr (Identifier ra2 a)
      (Some (LiteralExpression rk2 kind2 t')) in
  doCheck (Some left) (Some right) ctx = Ok (report right ctx)
  /\ (t <> t' -> doCheck (Some left) (Some other) ctx = Ok ctx)
  /\ isSameElementAccess left other = String.eqb t t'
  /\ (doCheck (Some left) (Some other) ctx = Ok (report other ctx) <-> t = t')
  /\ apply [] file_elem_quotes
     = Ok [mkFailure 9 15
             ("variable 'a[" ++ quote ++ "x" ++ quote ++ "]' is assigned to itself.")]
  /\ apply [] file_elem_number_string
     = Ok [mkFailure 7 13
             ("variable 'a[" ++ quote ++ "1" ++ quote ++ "]' is assigned to itself.")]
  /\ apply [] file_elem_distinct_keys = Ok [].
Proof.
  intros left right other.
  assert (Hsame : forall s,
             isSameElementAccess left
               (ElementAccessExpression rr (Identifier ra2 a)
                  (Some (LiteralExpression rk2 kind2 s)))
             = String.eqb t s).
  { intros s. unfold left. cbn [isSameElementAccess].
    unfold isSameIdentifier.
    cbn [isIdentifier isLiteralExpression textOf strictEq andb].
    now rewrite String.eqb_refl. }
  assert (Hcheck : forall s,
             doCheck (Some left)
               (Some (ElementAccessExpression rr (Identifier ra2 a)
                        (Some (LiteralExpression rk2 kind2 s)))) ctx
             = Ok (if String.eqb t s
                   then report (ElementAccessExpression rr (Identifier ra2 a)
                                  (Some (LiteralExpression rk2 kind2 s))) ctx
                   else ctx)).
  { intros s.
    rewrite (doCheck_element_access left
               (ElementAccessExpression rr (Identifier ra2 a)
                  (Some (LiteralExpression rk2 kind2 s)))
               ctx Hprops eq_refl eq_refl).
    now rewrite Hsame. }
  split; [ | split; [ | split; [ | split; [ | repeat split ] ] ] ].
  - unfold right. rewrite Hcheck. now rewrite String.eqb_refl.
  - intros Hne. unfold other. rewrite Hcheck.
    apply String.eqb_neq in Hne. now rewrite Hne.
  - apply Hsame.
  - unfold other. rewrite Hcheck. destruct (String.eqb_spec t t') as [Heq | Hne].
    + split; [intros _; exact Heq | reflexivity].
    + split; [ | intros Heq; contradiction ].
      intros H. exfalso. inversion H as [Hctx].
      apply (f_equal (fun c => length (failures c))) in Hctx.
      destruct ctx as [sf o fs]. cbn in Hctx. rewrite length_app in Hctx.
      simpl in Hctx. lia.
Qed.

Lemma literal_keys_compared_by_cooked_text_witness :
  let ctx := initialContext file_elem_number_string propsTrue in
  checkProperties (options ctx) = Some true
  /\ doCheck
       (Some (ElementAccessExpression (mkRange 0 4) (Identifier (mkRange 0 1) "a")
                (Some (LiteralExpression (mkRange 2 3) NumericLiteral "1"))))
       (Some (ElementAccessExpression (mkRange 7 13) (Identifier (mkRange 7 8) "a")
                (Some (LiteralExpression (mkRange 9 12) StringLiteral "1"))))
       ctx
     = Ok (report
             (ElementAccessExpression (mkRange 7 13) (Identifier (mkRange 7 8) "a")
                (Some (LiteralExpression (mkRange 9 12) StringLiteral "1")))
             ctx).
Proof.
  intros ctx. split; [reflexivity | ].
  exact (proj1 (literal_keys_compared_by_cooked_text
                  (mkRange 0 4) (mkRange 7 13) (mkRange 0 1) (mkRange 7 8)
                  (mkRange 2 3) (mkRange 9 12) "a" "1" "2"
                  NumericLiteral StringLiteral ctx eq_refl)).
Defined.

(** ** The [props] option *)

Lemma flat_map_ext_Forall (A B : Type) (f g : A -> list B) (l : list A) :
  Forall (fun x => f x = g x) l -> flat_map f l = flat_map g l.
Proof. induction 1 as [|x l Hx _ IH]; simpl; congruence. Qed.

Lemma elementFindings_ext (f g : Node -> Node -> list RuleFailure)
      (ls : list Node) :
  Forall (fun l => forall r, f l r = g l r) ls ->
  forall rs, elementFindings f ls rs = elementFindings g ls rs.
Proof.
  induction 1 as [|l ls Hl _ IH]; intros rs; [reflexivity | ].
  destruct rs as [|r rs]; [reflexivity | ].
  simpl. rewrite Hl, IH. reflexivity.
Qed.

Lemma Forall_memberFree (P : Node -> Prop) (l : list Node) :
  Forall (fun n => memberFree n = true -> P n) l ->
  forallb memberFree l = true -> Forall P l.
Proof.
  induction 1 as [|x l Hx _ IH]; simpl; intros H; constructor;
    apply andb_true_iff in H; destruct H; auto.
Qed.

Lemma pairFindings_memberFree (sf : SourceFile) (b1 b2 : bool) (left : Node) :
  memberFree left = true ->
  forall right, pairFindings sf b1 left right = pairFindings sf b2 left right.
Proof.
  induction left as
      [ | | | | | rg es IHes | | rg ps IHps | rg nm ini IHnm _ | | | | ]
      using Node_induction;
    intros Hfree right; try discriminate Hfree;
    rewrite !(pairFindings_eq sf _ _ right);
    cbn [isPropertyAccessExpression isElementAccessExpression andb];
    rewrite ?andb_false_r; try reflexivity.
  - destruct right; try reflexivity.
    eval_guards. rewrite !app_nil_r.
    apply elementFindings_ext.
    apply (Forall_memberFree _ es); [ | exact Hfree ].
    eapply Forall_impl; [ | exact IHes ]. intros l IH Hl r. now apply IH.
  - destruct right; try reflexivity.
    eval_guards. rewrite !app_nil_r.
    apply flat_map_ext_Forall.
    apply (Forall_memberFree _ ps); [ | exact Hfree ].
    eapply Forall_impl; [ | exact IHps ]. intros l IH Hl.
    apply flat_map_ext. intros r. now apply IH.
  - destruct ini; [reflexivity | ].
    destruct right; try reflexivity.
    eval_guards. rewrite !app_nil_r.
    now apply IHnm.
Qed.

Lemma doCheck_property_access (left right : Node) (ctx : WalkContext) :
  checkProperties (options ctx) = Some true ->
  isPropertyAccessExpression left = true ->
  isPropertyAccessExpression right = true ->
  doCheck (Some left) (Some right) ctx
  = Ok (if isSameMember left right then report right ctx else ctx).
Proof.
  intros Hprops Hl Hr.
  destruct (checkProperties_getProps _ _ Hprops) as (p & Hp & Hb).
  cbn [doCheck]. rewrite (doCheckNode_run left right ctx p Hp), Hb.
  rewrite pairFindings_eq.
  destruct left; try discriminate Hl. destruct right; try discriminate Hr.
  eval_guards.
  destruct ctx as [sf o fs].
  destruct (isSameMember _ _); [reflexivity | ].
  cbn [sourceFile options failures]. now rewrite app_nil_r.
Qed.

Lemma doCheck_member_rules_off (left right : Node) (ctx : WalkContext) :
  checkProperties (options ctx) = Some false ->
  isPropertyAccessExpression left || isElementAccessExpression left = true ->
  doCheck (Some left) (Some right) ctx = Ok ctx.
Proof.
  intros Hprops Hl.
  destruct (checkProperties_getProps _ _ Hprops) as (p & Hp & Hb).
  cbn [doCheck]. rewrite (doCheckNode_run left right ctx p Hp), Hb.
  rewrite pairFindings_eq.
  destruct left; try discriminate Hl;
    eval_guards;
    rewrite app_nil_r; now destruct ctx.
Qed.

(** C3: without arguments the rule runs as with [props] true; the
    option switches the property-access and element-access rules and
    nothing else: [a.b.c = a.b.c;] yields one finding with [props] true
    and none with [props] false; with [props] false a pair whose left
    side is a property or element access is never reported, with
    [props] true it is reported exactly when [isSameMember],
    respectively [isSameElementAccess], holds; a pair whose left side
    holds no such access where the check can reach gets the same
    findings under any two options values; and a self-assigned field is
    reported before the walk goes on, in any context.  With [props]
    false, [x = x;], [[a, b] = [a, b];], [({a, b} = {a, b});] and the
    field [foo = this.foo] are still reported. *)
Theorem props_option_gates_member_rules :
  (forall sf : SourceFile, apply [] sf = apply [propsTrue] sf)
  /\ apply [propsTrue] file_member
     = Ok [mkFailure 8 13 "variable 'a.b.c' is assigned to itself."]
  /\ apply [propsFalse] file_member = Ok []
  /\ (forall (left right : Node) (ctx : WalkContext),
         checkProperties (options ctx) = Some false ->
         isPropertyAccessExpression left || isElementAccessExpression left = true ->
         doCheck (Some left) (Some right) ctx = Ok ctx)
  /\ (forall (left right : Node) (ctx : WalkContext),
         checkProperties (options ctx) = Some true ->
         (isPropertyAccessExpression left = true ->
          isPropertyAccessExpression right = true ->
          doCheck (Some left) (Some right) ctx
          = Ok (if isSameMember left right then report right ctx else ctx))
         /\ (isElementAccessExpression left = true ->
             isElementAccessExpression right = true ->
             doCheck (Some left) (Some right) ctx
             = Ok (if isSameElementAccess left right
                   then report right ctx else ctx)))
  /\ (forall (left right : Node) (sf : SourceFile) (o1 o2 : JsValue)
             (fs : list RuleFailure),
         isNullish o1 = false -> isNullish o2 = false ->
         memberFree left = true ->
         exists fs',
           doCheck (Some left) (Some right) (mkContext sf o1 fs)
           = Ok (mkContext sf o1 fs')
           /\ doCheck (Some left) (Some right) (mkContext sf o2 fs)
              = Ok (mkContext sf o2 fs'))
  /\ (forall (rg : TextRange) (ms : list Node) (name : Node) (ty : option Node)
             (initializer : Node) (ctx : WalkContext),
         let field := PropertyDeclaration rg ms name ty (Some initializer) in
         isPropertySelfAssigned field = true ->
         recur field ctx = forEachChild recur field (report initializer ctx))
  /\ apply [propsFalse] file_ident
     = Ok [mkFailure 4 5 "variable 'x' is assigned to itself."]
  /\ apply [propsFalse] file_arr_plain
     = Ok [mkFailure 10 11 "variable 'a' is assigned to itself.";
           mkFailure 13 14 "variable 'b' is assigned to itself."]
  /\ apply [propsFalse] file_obj_plain
     = Ok [mkFailure 11 12 "variable 'a' is assigned to itself.";
           mkFailure 14 15 "variable 'b' is assigned to itself."]
  /\ apply [propsFalse] file_field_self
     = Ok [mkFailure 16 24 "variable 'this.foo' is assigned to itself."].
Proof.
  split; [reflexivity | ].
  split; [reflexivity | ].
  split; [reflexivity | ].
  split; [exact doCheck_member_rules_off | ].
  split.
  { intros left right ctx Hprops. split.
    - now apply doCheck_property_access.
    - now apply doCheck_element_access. }
  split.
  { intros left right sf o1 o2 fs H1 H2 Hfree.
    destruct (getProps_defined _ H1) as [p1 Hp1].
    destruct (getProps_defined _ H2) as [p2 Hp2].
    exists (fs ++ pairFindings sf (toBoolean p1) left right).
    cbn [doCheck]. split.
    - apply (@doCheckNode_findings sf o1 p1 Hp1).
    - rewrite (pairFindings_memberFree sf (toBoolean p1) (toBoolean p2) left Hfree).
      apply (@doCheckNode_findings sf o2 p2 Hp2). }
  split.
  { intros rg ms name ty initializer ctx field Hself.
    unfold field in *. rewrite recur_eq. cbn [bind]. cbv zeta.
    now rewrite Hself. }
  repeat split.
Qed.

Lemma props_option_gates_member_rules_witness :
  let ctx := initialContext file_member propsFalse in
  let chain (s : nat) :=
    PropertyAccessExpression (mkRange s (s + 5))
      (PropertyAccessExpression (mkRange s (s + 3))
         (Identifier (mkRange s (s + 1)) "a")
         (Identifier (mkRange (s + 2) (s + 3)) "b"))
      (Identifier (mkRange (s + 4) (s + 5)) "c") in
  checkProperties (options ctx) = Some false
  /\ isPropertyAccessExpression (chain 0) || isElementAccessExpression (chain 0)
     = true
  /\ doCheck (Some (chain 0)) (Some (chain 8)) ctx = Ok ctx.
Proof.
  intros ctx chain.
  split; [reflexivity | split; [reflexivity | ]].
  exact (proj1 (proj2 (proj2 (proj2 props_option_gates_member_rules)))
           (chain 0) (chain 8) ctx eq_refl eq_refl).
Defined.

Lemma lookupField_absent (key : string) (fields : list (string * JsValue)) :
  ~ In key (map fst fields) -> lookupField key fields = JsUndefined.
Proof.
  induction fields as [|[k v] fields IH]; simpl; intros H; [reflexivity | ].
  destruct (String.eqb_spec k key) as [->|Hne].
  - exfalso. apply H. now left.
  - apply IH. intros Hin. apply H. now right.
Qed.

(** C9: the object [{props: true}] is the options value only when the
    rule has no argument; otherwise the first argument is the options
    value as it stands.  An object that has no [props] field, or whose
    [props] is [false], makes the rule behave on every file as with
    [props] false, and a pair whose left side is a property or element
    access is then never reported: [a.b.c = a.b.c;] and
    [a["x"] = a["x"];] yield nothing under the empty object, and one
    finding each without arguments. *)
Theorem props_default_only_without_arguments :
  (forall sf : SourceFile, apply [] sf = applyWithFunction sf walk propsTrue)
  /\ (forall (first : JsValue) (rest : list JsValue) (sf : SourceFile),
         apply (first :: rest) sf = applyWithFunction sf walk first)
  /\ (forall (fields : list (string * JsValue)) (rest : list JsValue)
             (sf : SourceFile),
         ~ In "props" (map fst fields)
         \/ lookupField "props" fields = JsBoolean false ->
         apply (JsObject fields :: rest) sf = apply [propsFalse] sf)
  /\ (forall (fields : list (string * JsValue)) (left right : Node)
             (sf : SourceFile) (fs : list RuleFailure),
         ~ In "props" (map fst fields)
         \/ lookupField "props" fields = JsBoolean false ->
         isPropertyAccessExpression left || isElementAccessExpression left = true ->
         doCheck (Some left) (Some right) (mkContext sf (JsObject fields) fs)
         = Ok (mkContext sf (JsObject fields) fs))
  /\ apply [JsObject []] file_member = Ok []
  /\ apply [JsObject []] file_elem_string = Ok []
  /\ apply [propsFalse] file_member = Ok []
  /\ apply [] file_member
     = Ok [mkFailure 8 13 "variable 'a.b.c' is assigned to itself."]
  /\ apply [] file_elem_string
     = Ok [mkFailure 9 15
             ("variable 'a[" ++ quote ++ "x" ++ quote ++ "]' is assigned to itself.")].
Proof.
  assert (Hoff : forall fields,
             ~ In "props" (map fst fields)
             \/ lookupField "props" fields = JsBoolean false ->
             toBoolean (lookupField "props" fields) = false).
  { intros fields [H | H].
    - now rewrite (lookupField_absent "props" fields H).
    - now rewrite H. }
  split; [reflexivity | ].
  split; [reflexivity | ].
  split.
  { intros fields rest sf H.
    rewrite (apply_first (JsObject fields) rest sf
               (lookupField "props" fields) eq_refl).
    rewrite (apply_first propsFalse [] sf (JsBoolean false) eq_refl).
    now rewrite (Hoff fields H). }
  split.
  { intros fields left right sf fs H Hl.
    apply doCheck_member_rules_off; [ | exact Hl ].
    unfold checkProperties. cbn [options getProps]. now rewrite (Hoff fields H). }
  repeat split.
Qed.

Lemma props_default_only_without_arguments_witness :
  (~ In "props" (map fst [("other", JsBoolean true)])
   \/ lookupField "props" [("other", JsBoolean true)] = JsBoolean false)
  /\ apply [JsObject [("other", JsBoolean true)]] file_member
     = apply [propsFalse] file_member.
Proof.
  assert (H : ~ In "props" (map fst [("other", JsBoolean true)])
              \/ lookupField "props" [("other", JsBoolean true)] = JsBoolean false).
  { left. simpl. intros [H | []]. discriminate H. }
  split; [exact H | ].
  exact (proj1 (proj2 (proj2 props_default_only_without_arguments))
           [("other", JsBoolean true)] [] file_member H).
Defined.

(* ================================================================== *)
(** * Further properties of the rule *)

(** ** The walk, node by node *)

Lemma forEach_app (A S : Type) (body : A -> S -> Result S) (xs ys : list A) :
  forall s : S,
    forEach body (xs ++ ys) s = (s' <- forEach body xs s ;; forEach body ys s').
Proof.
  induction xs as [|x xs IH]; intros s; simpl; [reflexivity | ].
  destruct (body x s) as [s1|e]; simpl; [apply IH | reflexivity].
Qed.

Lemma forEach_flat_map (A B S : Type) (outer : A -> S -> Result S)
      (inner : B -> S -> Result S) (parts : A -> list B) (xs : list A) :
  Forall (fun x => forall s, outer x s = forEach inner (parts x) s) xs ->
  forall s : S, forEach outer xs s = forEach inner (flat_map parts xs) s.
Proof.
  induction 1 as [|x xs Hx _ IH]; intros s; simpl; [reflexivity | ].
  rewrite forEach_app, Hx.
  destruct (forEach inner (parts x) s) as [s1|e]; simpl; [apply IH | reflexivity].
Qed.

Lemma recur_visit_children (node : Node) (ctx : WalkContext) :
  recur node ctx = (c <- visit node ctx ;; forEachChild recur node c).
Proof.
  rewrite recur_eq. unfold visit.
  destruct node; try reflexivity.
  destruct (hasKind EqualsToken node2); [ | reflexivity ].
  destruct (doCheck _ _ ctx); reflexivity.
Qed.

Lemma visitNode_subnodes (c : option Node) :
  onChild (fun n => forall ctx, recur n ctx = forEach visit (subnodes n) ctx) c ->
  forall ctx, visitNode recur c ctx = forEach visit (childNodes subnodes c) ctx.
Proof. destruct c as [n|]; simpl; intros H ctx; [apply H | reflexivity]. Qed.

Lemma recur_subnodes (node : Node) :
  forall ctx : WalkContext, recur node ctx = forEach visit (subnodes node) ctx.
Proof.
  induction node as
      [ | | | rg e nm IHe IHnm | rg e a IHe IHa | rg es IHes | rg e IHe
        | rg ps IHps | rg nm ini IHnm IHini | rg e IHe
        | rg l op r IHl IHop IHr | rg ms nm ty ini IHms IHnm IHty IHini
        | rg k cs IHcs ]
      using Node_induction;
    intros ctx; rewrite recur_visit_children;
    cbn [subnodes forEach];
    destruct (visit _ ctx) as [c|err]; cbn [bind forEachChild];
    try reflexivity;
    rewrite ?forEach_app.
  - rewrite IHe. destruct (forEach visit (subnodes e) c); cbn [bind];
      [apply IHnm | reflexivity].
  - rewrite IHe. destruct (forEach visit (subnodes e) c); cbn [bind];
      [now apply visitNode_subnodes | reflexivity].
  - now apply forEach_flat_map.
  - apply IHe.
  - now apply forEach_flat_map.
  - rewrite IHnm. destruct (forEach visit (subnodes nm) c); cbn [bind];
      [now apply visitNode_subnodes | reflexivity].
  - apply IHe.
  - rewrite IHl. destruct (forEach visit (subnodes l) c) as [c1|]; cbn [bind];
      [ | reflexivity ].
    rewrite forEach_app, IHop.
    destruct (forEach visit (subnodes op) c1); cbn [bind];
      [apply IHr | reflexivity].
  - rewrite (forEach_flat_map _ _ _ recur visit subnodes ms IHms).
    destruct (forEach visit (flat_map subnodes ms) c) as [c1|]; cbn [bind];
      [ | reflexivity ].
    rewrite forEach_app, IHnm.
    destruct (forEach visit (subnodes nm) c1) as [c2|]; cbn [bind];
      [ | reflexivity ].
    rewrite forEach_app, (visitNode_subnodes ty IHty).
    destruct (forEach visit (childNodes subnodes ty) c2) as [c3|]; cbn [bind];
      [now apply visitNode_subnodes | reflexivity].
  - now apply forEach_flat_map.
Qed.

Lemma walk_allNodes (ctx : WalkContext) :
  walk ctx = forEach visit (allNodes (sourceFile ctx)) ctx.
Proof.
  unfold walk, allNodes. rewrite forEach_app.
  rewrite (forEach_flat_map _ _ _ recur visit subnodes).
  - destruct (forEach visit _ ctx); cbn [bind];
      [apply recur_subnodes | reflexivity].
  - apply Forall_forall. intros n _. apply recur_subnodes.
Qed.

Lemma apply_allNodes (ruleArguments : list JsValue) (sf : SourceFile) :
  apply ruleArguments sf
  = (ctx <- forEach visit (allNodes sf)
              (mkContext sf
                 match ruleArguments with
                 | first :: _ => first
                 | [] => propsTrue
                 end [])
       ;;
     Ok (failures ctx)).
Proof. unfold apply, applyWithFunction. rewrite walk_allNodes. reflexivity. Qed.

(** X1: the walk performs the two checks of [recur] (the pairwise check
    of a plain assignment, the report of a self-assigned field) at every
    node of the file exactly once, parents before children and in
    document order, whatever the checks before found; it stops only
    where a check raises. *)
Theorem walk_visits_every_node_in_order :
  (forall (node : Node) (ctx : WalkContext),
      recur node ctx = forEach visit (subnodes node) ctx)
  /\ (forall ctx : WalkContext,
         walk ctx = forEach visit (allNodes (sourceFile ctx)) ctx)
  /\ (forall (ruleArguments : list JsValue) (sf : SourceFile),
         apply ruleArguments sf
         = (ctx <- forEach visit (allNodes sf)
                     (mkContext sf
                        match ruleArguments with
                        | first :: _ => first
                        | [] => propsTrue
                        end [])
              ;;
            Ok (failures ctx))).
Proof.
  split; [exact recur_subnodes | split; [exact walk_allNodes | ]].
  exact apply_allNodes.
Qed.

(** ** Options that cannot be read *)

Section Unreadable.
Variable e : JsError.

Local Abbreviation unreadable ctx := (getProps (options ctx) = Throw e).

Lemma forEach_throws (A : Type) (body : A -> WalkContext -> Result WalkContext)
      (xs : list A) :
  Forall (fun x => forall ctx, unreadable ctx ->
                               body x ctx = Throw e \/ body x ctx = Ok ctx) xs ->
  forall ctx, unreadable ctx ->
              forEach body xs ctx = Throw e \/ forEach body xs ctx = Ok ctx.
Proof.
  induction 1 as [|x xs Hx _ IH]; intros ctx Hctx; simpl; [now right | ].
  destruct (Hx ctx Hctx) as [-> | ->]; cbn [bind]; [now left | now apply IH].
Qed.

Lemma checkElements_throws (ls : list Node) :
  Forall (fun l => forall r ctx, unreadable ctx -> doCheckNode l r ctx = Throw e)
         ls ->
  forall rs ctx,
    unreadable ctx ->
    checkElements doCheckNode ls rs ctx = Throw e
    \/ checkElements doCheckNode ls rs ctx = Ok ctx.
Proof.
  intros H rs ctx Hctx. destruct H as [|l ls Hl _]; [now right | ].
  destruct rs as [|r rs]; [now right | ].
  simpl. rewrite (Hl r ctx Hctx). now left.
Qed.

Lemma report_unreadable (node : Node) (ctx : WalkContext) :
  unreadable ctx -> unreadable (report node ctx).
Proof. now destruct ctx. Qed.

Lemma doCheckNode_throws (left : Node) :
  forall (right : Node) (ctx : WalkContext),
    unreadable ctx -> doCheckNode left right ctx = Throw e.
Proof.
  induction left as
      [ | | | | | rg es IHes | | rg ps IHps | rg nm ini IHnm _ | | | | ]
      using Node_induction;
    intros right ctx Hctx; rewrite doCheckNode_eq; cbv zeta;
    match goal with
    | |- context [if ?b then report right ctx else ctx] =>
        assert (Hun : unreadable (if b then report right ctx else ctx))
          by (destruct b; [now apply report_unreadable | exact Hctx]);
        revert Hun; generalize (if b then report right ctx else ctx);
        intros ctx1 Hun
    end;
    try destruct ini; destruct right; cbn [bind];
    try (rewrite Hun; reflexivity).
  - destruct (checkElements_throws es IHes elements ctx1 Hun) as [-> | ->];
      cbn [bind]; [reflexivity | now rewrite Hun].
  - assert (H : forEach
                  (fun leftProp =>
                     forEach (fun rightProp => doCheckNode leftProp rightProp)
                             (skipn (startRight properties) properties))
                  ps ctx1 = Throw e
                \/ forEach
                     (fun leftProp =>
                        forEach (fun rightProp => doCheckNode leftProp rightProp)
                                (skipn (startRight properties) properties))
                     ps ctx1 = Ok ctx1).
    { apply forEach_throws; [ | exact Hun ].
      eapply Forall_impl; [ | exact IHps ]. intros leftProp IH c Hc. cbv beta.
      apply forEach_throws; [ | exact Hc ].
      apply Forall_forall. intros rightProp _ c' Hc'. left. now apply IH. }
    destruct H as [-> | ->]; cbn [bind]; [reflexivity | now rewrite Hun].
  - now rewrite (IHnm _ ctx1 Hun).
Qed.
End Unreadable.

Lemma visit_plain_assignment_unreadable (n : Node) (ctx : WalkContext)
      (e : JsError) :
  getProps (options ctx) = Throw e ->
  isPlainAssignment n = true ->
  visit n ctx = Throw e.
Proof.
  intros Hctx Hn. destruct n; try discriminate Hn.
  unfold visit. simpl in Hn. rewrite Hn. cbn [doCheck].
  now rewrite (doCheckNode_throws e n1 n3 ctx Hctx).
Qed.

Lemma visit_other_node (n : Node) (sf : SourceFile) (o : JsValue)
      (fs : list RuleFailure) :
  isPlainAssignment n = false ->
  visit n (mkContext sf o fs) = Ok (mkContext sf o (fs ++ fieldFinding sf n)).
Proof.
  intros Hn. unfold visit, fieldFinding.
  destruct n; cbn [bind]; rewrite ?app_nil_r; try reflexivity.
  - simpl in Hn. rewrite Hn. reflexivity.
  - destruct initializer as [i|]; [ | now rewrite app_nil_r ].
    destruct (isPropertySelfAssigned _); [reflexivity | now rewrite app_nil_r].
Qed.

Lemma forEach_visit_without_assignment (sf : SourceFile) (o : JsValue)
      (nodes : list Node) :
  existsb isPlainAssignment nodes = false ->
  forall fs,
    forEach visit nodes (mkContext sf o fs)
    = Ok (mkContext sf o (fs ++ flat_map (fieldFinding sf) nodes)).
Proof.
  induction nodes as [|n nodes IH]; simpl; intros H fs.
  - now rewrite app_nil_r.
  - apply orb_false_iff in H. destruct H as [Hn Hrest].
    rewrite (visit_other_node n sf o fs Hn). cbn [bind].
    rewrite (IH Hrest). now rewrite app_assoc.
Qed.

Lemma forEach_visit_unreadable (sf : SourceFile) (o : JsValue) (e : JsError)
      (nodes : list Node) :
  getProps o = Throw e ->
  existsb isPlainAssignment nodes = true ->
  forall fs, forEach visit nodes (mkContext sf o fs) = Throw e.
Proof.
  intros Ho. induction nodes as [|n nodes IH]; simpl; intros H fs;
    [discriminate H | ].
  destruct (isPlainAssignment n) eqn:Hn.
  - now rewrite (visit_plain_assignment_unreadable n (mkContext sf o fs) e Ho Hn).
  - rewrite (visit_other_node n sf o fs Hn). cbn [bind]. now apply IH.
Qed.

(** X2: when the first rule argument is [null] or [undefined], the run
    raises the TypeError of reading [props] as soon as the file holds a
    plain assignment anywhere, and no finding is returned; a file that
    holds none is analysed without the options being read: under every
    argument list the result is the findings for its self-initialized
    fields, in document order. *)
Theorem unreadable_options_raise_on_assignment (sf : SourceFile) :
  (forall first : JsValue,
      isNullish first = true <-> exists e, getProps first = Throw e)
  /\ (forall (first : JsValue) (rest : list JsValue) (e : JsError),
         getProps first = Throw e ->
         existsb isPlainAssignment (allNodes sf) = true ->
         apply (first :: rest) sf = Throw e)
  /\ (existsb isPlainAssignment (allNodes sf) = false ->
      forall ruleArguments : list JsValue,
        apply ruleArguments sf
        = Ok (flat_map (fieldFinding sf) (allNodes sf))).
Proof.
  split; [ | split ].
  - intros first. split.
    + destruct first; try discriminate; intros _; eexists; reflexivity.
    + intros [e He]. destruct first; try discriminate He; reflexivity.
  - intros first rest e He Hsome.
    rewrite apply_allNodes.
    now rewrite (forEach_visit_unreadable sf first e (allNodes sf) He Hsome).
  - intros Hnone ruleArguments.
    rewrite apply_allNodes.
    now rewrite (forEach_visit_without_assignment sf _ (allNodes sf) Hnone).
Qed.

Lemma unreadable_options_raise_on_assignment_witness :
  getProps JsNull = Throw (TypeError "Cannot read property 'props' of null")
  /\ existsb isPlainAssignment (allNodes file_arr_nested) = true
  /\ apply [JsNull] file_arr_nested
     = Throw (TypeError "Cannot read property 'props' of null")
  /\ existsb isPlainAssignment (allNodes file_field_self) = false
  /\ apply [JsUndefined] file_field_self
     = Ok (flat_map (fieldFinding file_field_self) (allNodes file_field_self)).
Proof.
  split; [reflexivity | split; [reflexivity | split ]].
  - exact (proj1 (proj2 (unreadable_options_raise_on_assignment file_arr_nested))
             JsNull [] (TypeError "Cannot read property 'props' of null")
             eq_refl eq_refl).
  - split; [reflexivity | ].
    exact (proj2 (proj2 (unreadable_options_raise_on_assignment file_field_self))
             eq_refl [JsUndefined]).
Defined.

(** ** Property-access chains (rule 5) *)

Lemma strictEq_spec (a b : option string) : strictEq a b = true <-> a = b.
Proof.
  destruct a as [x|], b as [y|]; simpl; split; intros H;
    try discriminate; try reflexivity.
  - apply String.eqb_eq in H. now subst.
  - inversion H. apply String.eqb_refl.
Qed.

Lemma isSameMember_eq (left right : Node) :
  isSameMember left right =
  if negb (isSameProperty left right) then false
  else
    match left, right with
    | PropertyAccessExpression _ leftExp _, PropertyAccessExpression _ rightExp _ =>
        if isPropertyAccessExpression leftExp && isPropertyAccessExpression rightExp
        then isSameMember leftExp rightExp
        else isIdentifier leftExp && isIdentifier rightExp
             && strictEq (textOf leftExp) (textOf rightExp)
    | _, _ => false
    end.
Proof. destruct left; reflexivity. Qed.

Lemma memberChain_access (rg : TextRange) (e nm : Node) :
  memberChain (PropertyAccessExpression rg e nm)
  = option_map (fun c => c ++ [textOf nm]) (baseChain e).
Proof. destruct e; reflexivity. Qed.

Lemma memberChain_length (n : Node) :
  forall c, memberChain n = Some c -> 2 <= length c.
Proof.
  induction n as [ | | | rg e nm IHe _ | | | | | | | | | ] using Node_induction;
    intros c Hm; try discriminate Hm.
  rewrite memberChain_access in Hm.
  destruct e; try discriminate Hm.
  - simpl in Hm. inversion Hm. simpl. lia.
  - cbn [baseChain] in Hm.
    destruct (memberChain (PropertyAccessExpression range e1 e2)) as [c0|] eqn:Hc;
      [ | discriminate Hm ].
    simpl in Hm. inversion Hm. rewrite length_app. specialize (IHe c0 eq_refl). lia.
Qed.

Lemma isSameMember_chain (left : Node) :
  forall right : Node,
    isSameMember left right = true
    <-> exists c, memberChain left = Some c /\ memberChain right = Some c.
Proof.
  induction left as [ | | | rg e nm IHe _ | | | | | | | | | ]
    using Node_induction;
    intros right;
    try (split; [discriminate | intros (c & Hm & _); discriminate Hm]).
  destruct right as [ | | | rr re rnm | | | | | | | | | ];
    try (split; [discriminate | intros (c & _ & Hm); discriminate Hm]).
  rewrite isSameMember_eq, !memberChain_access. cbn [isSameProperty].
  assert (Hbase :
    (if isPropertyAccessExpression e && isPropertyAccessExpression re
     then isSameMember e re
     else isIdentifier e && isIdentifier re && strictEq (textOf e) (textOf re))
    = true
    <-> exists c0, baseChain e = Some c0 /\ baseChain re = Some c0).
  { assert (Hlen : forall n c t,
               memberChain n = Some c -> c <> [Some t]).
    { intros n c t Hm Heq. apply memberChain_length in Hm. subst c.
      simpl in Hm. lia. }
    destruct e as [ | lr1 lt1 | | lr1 le1 ln1 | | | | | | | | | ];
      destruct re as [ | rr2 rt2 | | rr2 re2 rn2 | | | | | | | | | ];
      cbn [isPropertyAccessExpression isIdentifier andb textOf strictEq
           baseChain];
      try (split;
           [ discriminate
           | intros (c0 & Hm & Hm'); first [discriminate Hm | discriminate Hm'] ]).
    - split.
      + intros Hm. apply String.eqb_eq in Hm. subst. eauto.
      + intros (c0 & Hm & Hm'). apply String.eqb_eq. congruence.
    - split; [discriminate | ]. intros (c0 & Hm & Hm').
      inversion Hm; subst. exfalso. exact (Hlen _ _ _ Hm' eq_refl).
    - split; [discriminate | ]. intros (c0 & Hm & Hm').
      inversion Hm'; subst. exfalso. exact (Hlen _ _ _ Hm eq_refl).
    - apply IHe. }
  destruct (strictEq (textOf nm) (textOf rnm)) eqn:Hname; cbn [negb].
  - apply strictEq_spec in Hname. rewrite Hname, Hbase. split.
    + intros (c0 & -> & ->). simpl. eauto.
    + intros (c & Hm & Hm').
      destruct (baseChain e) as [c1|]; [ | discriminate Hm ].
      destruct (baseChain re) as [c2|]; [ | discriminate Hm' ].
      simpl in Hm, Hm'. rewrite <- Hm' in Hm. inversion Hm as [Heq].
      apply app_inj_tail in Heq. destruct Heq as [-> _]. eauto.
  - split; [discriminate | ]. intros (c & Hm & Hm').
    destruct (baseChain e) as [c1|]; [ | discriminate Hm ].
    destruct (baseChain re) as [c2|]; [ | discriminate Hm' ].
    simpl in Hm, Hm'. rewrite <- Hm' in Hm. inversion Hm as [Heq].
    apply app_inj_tail in Heq. destruct Heq as [_ Heq].
    apply strictEq_spec in Heq. congruence.
Qed.

(** X3: two property accesses are the same member exactly when both are
    chains rooted at an identifier that spell the same path: the same
    identifier text and the same names, in the same number. *)
Theorem same_member_iff_same_chain (left right : Node) :
  isSameMember left right = true
  <-> exists c, memberChain left = Some c /\ memberChain right = Some c.
Proof. apply isSameMember_chain. Qed.

Lemma isSameMember_unrooted (left right : Node) :
  memberChain left = None \/ memberChain right = None ->
  isSameMember left right = false.
Proof.
  intros Hnone. destruct (isSameMember left right) eqn:Hsame; [ | reflexivity ].
  apply isSameMember_chain in Hsame. destruct Hsame as (c & Hl & Hr).
  destruct Hnone as [Hn | Hn]; congruence.
Qed.

(** X4: a property access whose innermost base is not an identifier
    ([this.a], [f().a], [a[0].b]) is never reported by the pairwise
    check, on either side and with the property rules enabled; so
    [this.a = this.a;] yields no finding. *)
Theorem unrooted_member_never_reported
    (left right : Node) (ctx : WalkContext)
    (Hctx : isNullish (options ctx) = false)
    (Hleft : isPropertyAccessExpression left = true)
    (Hchain : memberChain left = None \/ memberChain right = None) :
  doCheck (Some left) (Some right) ctx = Ok ctx
  /\ apply [propsTrue] file_this_member = Ok [].
Proof.
  split; [ | reflexivity ].
  destruct (getProps_defined _ Hctx) as [p Hp].
  cbn [doCheck]. rewrite (doCheckNode_run left right ctx p Hp).
  rewrite pairFindings_eq, (isSameMember_unrooted left right Hchain).
  destruct left; try discriminate Hleft.
  eval_guards. rewrite !andb_false_r. cbn [app]. rewrite app_nil_r.
  now destruct ctx.
Qed.

Lemma unrooted_member_never_reported_witness :
  let ctx := initialContext file_this_member propsTrue in
  let access (s : nat) :=
    PropertyAccessExpression (mkRange s (s + 6))
      (Token (mkRange s (s + 4)) ThisKeyword)
      (Identifier (mkRange (s + 5) (s + 6)) "a") in
  isNullish (options ctx) = false
  /\ isPropertyAccessExpression (access 0) = true
  /\ (memberChain (access 0) = None \/ memberChain (access 9) = None)
  /\ doCheck (Some (access 0)) (Some (access 9)) ctx = Ok ctx.
Proof.
  intros ctx access.
  assert (Hchain : memberChain (access 0) = None \/ memberChain (access 9) = None)
    by (left; reflexivity).
  split; [reflexivity | split; [reflexivity | split; [exact Hchain | ]]].
  exact (proj1 (unrooted_member_never_reported
                  (access 0) (access 9) ctx eq_refl eq_refl Hchain)).
Defined.

(** ** The comparisons are symmetric *)

Lemma strictEq_sym (a b : option string) : strictEq a b = strictEq b a.
Proof. destruct a, b; simpl; try reflexivity. apply String.eqb_sym. Qed.

Lemma isSameIdentifier_sym (a b : Node) :
  isSameIdentifier a b = isSameIdentifier b a.
Proof.
  unfold isSameIdentifier.
  now rewrite (andb_comm (isIdentifier a)), (strictEq_sym (textOf a)).
Qed.

Lemma bool_eq_of_iff (a b : bool) : (a = true <-> b = true) -> a = b.
Proof. destruct a, b; intros [H1 H2]; auto; symmetry; auto. Qed.

(** X5: the comparisons do not depend on which side is which:
    [isSameIdentifier], [isSameProperty], [isSameMember] and
    [isSameElementAccess] give the same answer with their arguments
    swapped. *)
Theorem comparisons_symmetric (a b : Node) :
  isSameIdentifier a b = isSameIdentifier b a
  /\ isSameProperty a b = isSameProperty b a
  /\ isSameMember a b = isSameMember b a
  /\ isSameElementAccess a b = isSameElementAccess b a.
Proof.
  split; [apply isSameIdentifier_sym | split; [ | split ]].
  - destruct a, b; try reflexivity. simpl. apply strictEq_sym.
  - apply bool_eq_of_iff. rewrite !isSameMember_chain.
    split; intros (c & H1 & H2); eauto.
  - destruct a, b; try reflexivity. cbn [isSameElementAccess].
    rewrite (isSameIdentifier_sym a b).
    destruct (isSameIdentifier b a); [ | reflexivity ].
    destruct argumentExpression as [ka|], argumentExpression0 as [kb|];
      try reflexivity.
    rewrite (andb_comm (isIdentifier ka)), (andb_comm (isLiteralExpression ka)),
      (strictEq_sym (textOf ka)).
    reflexivity.
Qed.

Lemma same_member_iff_same_chain_witness :
  let chain (s : nat) :=
    PropertyAccessExpression (mkRange s (s + 3))
      (Identifier (mkRange s (s + 1)) "a")
      (Identifier (mkRange (s + 2) (s + 3)) "b") in
  (exists c, memberChain (chain 0) = Some c /\ memberChain (chain 6) = Some c)
  /\ isSameMember (chain 0) (chain 6) = true.
Proof.
  intros chain.
  assert (Hc : exists c, memberChain (chain 0) = Some c
                         /\ memberChain (chain 6) = Some c)
    by (exists [Some "a"; Some "b"]; split; reflexivity).
  split; [exact Hc | ].
  exact (proj2 (same_member_iff_same_chain (chain 0) (chain 6)) Hc).
Defined.

(** ** What the options value contributes *)

Lemma checkProperties_apply (first : JsValue) (rest : list JsValue)
      (sf : SourceFile) (b : bool) :
  checkProperties first = Some b ->
  apply (first :: rest) sf = Ok (fileFindings sf b).
Proof.
  intros H. destruct (checkProperties_getProps first b H) as (p & Hp & <-).
  exact (apply_first first rest sf p Hp).
Qed.

(** X6: the options value matters only through the truthiness of its
    [props] member, and the arguments after the first do not matter at
    all: two argument lists whose first values agree on it give the same
    result on every file.  In particular a first argument that is a
    boolean, a number, a string or an array has no [props] member and
    switches the property rules off. *)
Theorem options_matter_through_truthiness_only
    (first first' : JsValue) (rest rest' : list JsValue) (sf : SourceFile)
    (Hread : isNullish first = false)
    (Hsame : checkProperties first = checkProperties first') :
  apply (first :: rest) sf = apply (first' :: rest') sf
  /\ (forall (b : bool) (n : Z) (s : string) (items : list JsValue),
         apply (JsBoolean b :: rest) sf = apply [propsFalse] sf
         /\ apply (JsNumber n :: rest) sf = apply [propsFalse] sf
         /\ apply (JsString s :: rest) sf = apply [propsFalse] sf
         /\ apply (JsArray items :: rest) sf = apply [propsFalse] sf).
Proof.
  split.
  - destruct (getProps_defined first Hread) as [p Hp].
    assert (H : checkProperties first = Some (toBoolean p))
      by (unfold checkProperties; now rewrite Hp).
    rewrite (checkProperties_apply first rest sf _ H).
    rewrite Hsame in H.
    now rewrite (checkProperties_apply first' rest' sf _ H).
  - intros b n s items.
    rewrite (checkProperties_apply propsFalse [] sf false eq_refl).
    repeat split; now apply checkProperties_apply.
Qed.

Lemma options_matter_through_truthiness_only_witness :
  let yes := JsObject [("props", JsString "no")] in
  isNullish yes = false
  /\ checkProperties yes = checkProperties propsTrue
  /\ apply [yes; JsNull] file_member = apply [propsTrue] file_member.
Proof.
  intros yes.
  split; [reflexivity | split; [reflexivity | ]].
  exact (proj1 (options_matter_through_truthiness_only
                  yes propsTrue [JsNull] [] file_member eq_refl eq_refl)).
Defined.

(** ** Enabling the property rules only adds findings *)

Lemma Subsequence_refl (A : Type) (l : list A) : Subsequence l l.
Proof. induction l; constructor; assumption. Qed.

Lemma Subsequence_nil_l (A : Type) (l : list A) : Subsequence [] l.
Proof. induction l; constructor; assumption. Qed.

Lemma Subsequence_app (A : Type) (a a' b b' : list A) :
  Subsequence a a' -> Subsequence b b' -> Subsequence (a ++ b) (a' ++ b').
Proof. intros Ha Hb. induction Ha; simpl; try constructor; assumption. Qed.

Lemma Subsequence_flat_map (A B : Type) (f g : A -> list B) (l : list A) :
  Forall (fun x => Subsequence (f x) (g x)) l ->
  Subsequence (flat_map f l) (flat_map g l).
Proof.
  induction 1 as [|x l Hx _ IH]; simpl; [constructor | now apply Subsequence_app].
Qed.

Lemma elementFindings_Subsequence (f g : Node -> Node -> list RuleFailure)
      (ls : list Node) :
  Forall (fun l => forall r, Subsequence (f l r) (g l r)) ls ->
  forall rs, Subsequence (elementFindings f ls rs) (elementFindings g ls rs).
Proof.
  induction 1 as [|l ls Hl _ IH]; intros rs; [constructor | ].
  destruct rs as [|r rs]; [constructor | ].
  simpl. apply Subsequence_app; [apply Hl | ].
  destruct (isSpreadElement r); [constructor | apply IH].
Qed.

Lemma pairFindings_Subsequence (sf : SourceFile) (left : Node) :
  forall right : Node,
    Subsequence (pairFindings sf false left right)
                (pairFindings sf true left right).
Proof.
  induction left as
      [ | | | | | rg es IHes | | rg ps IHps | rg nm ini IHnm _ | | | | ]
      using Node_induction;
    intros right; rewrite !(pairFindings_eq sf _ _ right);
    (apply Subsequence_app; [apply Subsequence_refl | ]);
    (apply Subsequence_app;
     [ | apply Subsequence_app;
         [ | apply Subsequence_app; [ | apply Subsequence_nil_l ] ] ]);
    try apply Subsequence_refl.
  - destruct right; try apply Subsequence_refl.
    now apply elementFindings_Subsequence.
  - destruct right; try apply Subsequence_refl.
    apply Subsequence_flat_map.
    eapply Forall_impl; [ | exact IHps ]. intros leftProp IH. cbv beta.
    apply Subsequence_flat_map, Forall_forall. intros rightProp _. apply IH.
  - destruct ini; [apply Subsequence_refl | ].
    destruct right; try apply Subsequence_refl. apply IHnm.
Qed.

Lemma childFindings_Subsequence (f g : Node -> list RuleFailure)
      (c : option Node) :
  onChild (fun n => Subsequence (f n) (g n)) c ->
  Subsequence (childFindings f c) (childFindings g c).
Proof. destruct c; simpl; intros H; [exact H | constructor]. Qed.

Lemma nodeFindings_Subsequence (sf : SourceFile) (node : Node) :
  Subsequence (nodeFindings sf false node) (nodeFindings sf true node).
Proof.
  induction node as
      [ | | | rg e nm IHe IHnm | rg e a IHe IHa | rg es IHes | rg e IHe
        | rg ps IHps | rg nm ini IHnm IHini | rg e IHe
        | rg l op r IHl IHop IHr | rg ms nm ty ini IHms IHnm IHty IHini
        | rg k cs IHcs ]
      using Node_induction;
    match goal with
    | |- Subsequence (nodeFindings sf false ?n) _ =>
        rewrite (nodeFindings_eq sf false n), (nodeFindings_eq sf true n)
    end;
    repeat first
           [ apply Subsequence_refl
           | assumption
           | apply Subsequence_flat_map; assumption
           | apply childFindings_Subsequence; assumption
           | apply Subsequence_app ].
  destruct (hasKind EqualsToken op);
    [apply pairFindings_Subsequence | constructor].
Qed.

(** X7: switching the property rules on never removes or reorders a
    finding: on every file, the findings of a run with [props] falsy are
    the findings of a run with any other readable options value with
    some of them left out. *)
Theorem enabling_props_only_adds_findings
    (first second : JsValue) (rest rest' : list JsValue) (sf : SourceFile)
    (Hoff : checkProperties first = Some false)
    (Hread : isNullish second = false) :
  exists off on : list RuleFailure,
    apply (first :: rest) sf = Ok off
    /\ apply (second :: rest') sf = Ok on
    /\ Subsequence off on.
Proof.
  destruct (getProps_defined second Hread) as [p Hp].
  exists (fileFindings sf false), (fileFindings sf (toBoolean p)).
  split; [now apply checkProperties_apply | ].
  split; [exact (apply_first second rest' sf p Hp) | ].
  destruct (toBoolean p); [ | apply Subsequence_refl ].
  unfold fileFindings. apply Subsequence_app.
  - apply Subsequence_flat_map, Forall_forall. intros n _.
    apply nodeFindings_Subsequence.
  - apply nodeFindings_Subsequence.
Qed.

Lemma enabling_props_only_adds_findings_witness :
  checkProperties propsFalse = Some false
  /\ isNullish propsTrue = false
  /\ exists off on : list RuleFailure,
      apply [propsFalse] file_member = Ok off
      /\ apply [propsTrue] file_member = Ok on
      /\ Subsequence off on.
Proof.
  split; [reflexivity | split; [reflexivity | ]].
  exact (enabling_props_only_adds_findings
           propsFalse propsTrue [] [] file_member eq_refl eq_refl).
Defined.

(** ** Pairs no rule looks at *)

Lemma pairFindings_unchecked (sf : SourceFile) (b : bool) (left right : Node) :
  isCheckedKind left && isCheckedKind right = false \/ hasDefault left = true ->
  pairFindings sf b left right = [].
Proof.
  intros H. rewrite pairFindings_eq.
  destruct left, right;
    try (destruct H as [H | H]; discriminate H);
    eval_guards; rewrite ?andb_false_r; try reflexivity;
    destruct objectAssignmentInitializer; try reflexivity;
    destruct H as [H | H]; discriminate H.
Qed.

(** X8: a pair is only ever reported when both sides are an identifier,
    an array literal, an object literal, a shorthand property, a
    property access or an element access: a pair with a side of any
    other kind (a literal, a call, a spread, [this], a property
    assignment [a: a], ...) leaves the context unchanged, and so does a
    pair whose left side is a shorthand property with a default value. *)
Theorem unchecked_pairs_never_reported
    (left right : Node) (ctx : WalkContext)
    (Hctx : isNullish (options ctx) = false)
    (Hnever : isCheckedKind left && isCheckedKind right = false
              \/ hasDefault left = true) :
  doCheck (Some left) (Some right) ctx = Ok ctx.
Proof.
  destruct (getProps_defined _ Hctx) as [p Hp].
  cbn [doCheck]. rewrite (doCheckNode_run left right ctx p Hp).
  rewrite (pairFindings_unchecked _ _ left right Hnever), app_nil_r.
  now destruct ctx.
Qed.

Lemma unchecked_pairs_never_reported_witness :
  let one (s : nat) := LiteralExpression (mkRange s (s + 1)) NumericLiteral "1" in
  let ctx := initialContext file_ident propsTrue in
  isNullish (options ctx) = false
  /\ (isCheckedKind (one 0) && isCheckedKind (one 4) = false
      \/ hasDefault (one 0) = true)
  /\ doCheck (Some (one 0)) (Some (one 4)) ctx = Ok ctx.
Proof.
  intros one ctx.
  assert (H : isCheckedKind (one 0) && isCheckedKind (one 4) = false
              \/ hasDefault (one 0) = true) by (left; reflexivity).
  split; [reflexivity | split; [exact H | ]].
  exact (unchecked_pairs_never_reported (one 0) (one 4) ctx eq_refl H).
Defined.

(** ** What a spread on the right hides *)

Lemma startRight_past_spread (pre post : list Node) (q : Node) :
  isSpreadAssignment q = true ->
  (forall x, In x post -> isSpreadAssignment x = false) ->
  skipn (startRight (pre ++ q :: post)) (pre ++ q :: post) = post.
Proof.
  intros Hq Hpost.
  rewrite (startRight_after_last_spread (pre ++ q :: post) (length pre) q).
  - replace (S (length pre)) with (length (pre ++ [q]))
      by (rewrite length_app; simpl; lia).
    replace (pre ++ q :: post) with ((pre ++ [q]) ++ post)
      by (now rewrite <- app_assoc).
    now rewrite skipn_app, skipn_all, Nat.sub_diag.
  - now rewrite nth_error_app2, Nat.sub_diag by lia.
  - exact Hq.
  - intros j x Hj Hx. apply Hpost.
    rewrite nth_error_app2 in Hx by lia.
    destruct (j - length pre) as [|k] eqn:Hk; [lia | ].
    simpl in Hx. now apply nth_error_In in Hx.
Qed.

Lemma flat_map_nothing (A B : Type) (f : A -> list B) (l : list A) :
  (forall x, f x = []) -> flat_map f l = [].
Proof. intros H. induction l as [|x l IH]; simpl; [ | rewrite H, IH ]; reflexivity. Qed.

Lemma elementFindings_cut (f : Node -> Node -> list RuleFailure) (q : Node)
      (post : list Node) :
  isSpreadElement q = true ->
  (forall l, f l q = []) ->
  forall pre ls,
    elementFindings f ls (pre ++ q :: post) = elementFindings f ls pre.
Proof.
  intros Hq Hf pre. induction pre as [|x pre IH]; intros ls.
  - destruct ls as [|l ls]; [reflexivity | ].
    simpl. now rewrite Hq, Hf.
  - destruct ls as [|l ls]; [reflexivity | ].
    simpl. now rewrite IH.
Qed.

(** X9: what a spread on the right side hides from the pairwise check.
    For object literals, the right properties up to and including the
    last spread property are ignored: the check gives what it gives on
    the properties after it alone, hence nothing when the spread comes
    last.  For array literals, a spread element and everything after it
    are ignored: the check gives what it gives on the elements before
    it alone, hence nothing when the right side starts with a spread. *)
Theorem spread_hides_part_of_right_side
    (rl rr rr' : TextRange) (ls pre post : list Node) (q : Node)
    (ctx : WalkContext)
    (Hctx : isNullish (options ctx) = false) :
  (isSpreadAssignment q = true ->
   (forall x, In x post -> isSpreadAssignment x = false) ->
   doCheck (Some (ObjectLiteralExpression rl ls))
           (Some (ObjectLiteralExpression rr (pre ++ q :: post))) ctx
   = doCheck (Some (ObjectLiteralExpression rl ls))
             (Some (ObjectLiteralExpression rr' post)) ctx)
  /\ (isSpreadAssignment q = true ->
      doCheck (Some (ObjectLiteralExpression rl ls))
              (Some (ObjectLiteralExpression rr (pre ++ [q]))) ctx
      = Ok ctx)
  /\ (isSpreadElement q = true ->
      doCheck (Some (ArrayLiteralExpression rl ls))
              (Some (ArrayLiteralExpression rr (pre ++ q :: post))) ctx
      = doCheck (Some (ArrayLiteralExpression rl ls))
                (Some (ArrayLiteralExpression rr' pre)) ctx)
  /\ (isSpreadElement q = true ->
      doCheck (Some (ArrayLiteralExpression rl ls))
              (Some (ArrayLiteralExpression rr (q :: post))) ctx
      = Ok ctx).
Proof.
  destruct (getProps_defined _ Hctx) as [p Hp].
  assert (Hobj : forall rps,
             pairFindings (sourceFile ctx) (toBoolean p)
               (ObjectLiteralExpression rl ls) (ObjectLiteralExpression rr rps)
             = flat_map (fun leftProp =>
                           flat_map (pairFindings (sourceFile ctx) (toBoolean p)
                                                  leftProp)
                                    (skipn (startRight rps) rps)) ls).
  { intros rps. rewrite pairFindings_eq. eval_guards.
    now rewrite !andb_false_r, app_nil_r. }
  assert (Harr : forall rs,
             pairFindings (sourceFile ctx) (toBoolean p)
               (ArrayLiteralExpression rl ls) (ArrayLiteralExpression rr rs)
             = elementFindings (pairFindings (sourceFile ctx) (toBoolean p))
                               ls rs).
  { intros rs. rewrite pairFindings_eq. eval_guards.
    now rewrite !andb_false_r, app_nil_r. }
  assert (Hspread : forall l, isSpreadElement q = true ->
             pairFindings (sourceFile ctx) (toBoolean p) l q = []).
  { intros l Hq. apply pairFindings_unchecked. left.
    destruct q; try discriminate Hq. apply andb_false_r. }
  cbn [doCheck]. rewrite !(doCheckNode_run _ _ ctx p Hp).
  split; [ | split; [ | split ]].
  - intros Hq Hpost. rewrite Hobj.
    rewrite (startRight_past_spread pre post q Hq Hpost).
    rewrite pairFindings_eq. eval_guards.
    rewrite !andb_false_r, app_nil_r.
    now rewrite (startRight_without_spread post Hpost).
  - intros Hq. rewrite Hobj.
    rewrite (startRight_past_spread pre [] q Hq) by (intros x []).
    rewrite flat_map_nothing by reflexivity.
    rewrite app_nil_r. now destruct ctx.
  - intros Hq. rewrite Harr.
    rewrite (elementFindings_cut _ q post Hq (fun l => Hspread l Hq)).
    rewrite pairFindings_eq. eval_guards.
    now rewrite !andb_false_r, app_nil_r.
  - intros Hq. rewrite Harr.
    pose proof (elementFindings_cut
                  (pairFindings (sourceFile ctx) (toBoolean p)) q post Hq
                  (fun l => Hspread l Hq) [] ls) as Hcut.
    cbn [app] in Hcut. rewrite Hcut.
    destruct ls; simpl; rewrite app_nil_r; now destruct ctx.
Qed.

Lemma spread_hides_part_of_right_side_witness :
  let a1 := ShorthandPropertyAssignment (mkRange 2 3) (Identifier (mkRange 2 3) "a") None in
  let a2 := ShorthandPropertyAssignment (mkRange 8 9) (Identifier (mkRange 8 9) "a") None in
  let x := SpreadAssignment (mkRange 11 15) (Identifier (mkRange 14 15) "x") in
  let ctx := initialContext file_obj_single propsTrue in
  isNullish (options ctx) = false
  /\ isSpreadAssignment x = true
  /\ doCheck (Some (ObjectLiteralExpression (mkRange 1 4) [a1]))
             (Some (ObjectLiteralExpression (mkRange 7 16) ([a2] ++ [x]))) ctx
     = Ok ctx.
Proof.
  intros a1 a2 x ctx.
  split; [reflexivity | split; [reflexivity | ]].
  exact (proj1 (proj2 (spread_hides_part_of_right_side
                         (mkRange 1 4) (mkRange 7 16) (mkRange 7 16)
                         [a1] [a2] [] x ctx eq_refl))
           eq_refl).
Defined.

(** ** Where the findings point *)

Lemma subnodes_self (n : Node) : In n (subnodes n).
Proof. destruct n; left; reflexivity. Qed.

Lemma anchored_incl (sf : SourceFile) (small large : list Node) (f : RuleFailure) :
  incl small large -> anchored sf small f -> anchored sf large f.
Proof. intros Hincl (n & Hn & H). exists n. split; [now apply Hincl | exact H]. Qed.

Lemma Forall_anchored_incl (sf : SourceFile) (small large : list Node)
      (fs : list RuleFailure) :
  incl small large ->
  Forall (anchored sf small) fs -> Forall (anchored sf large) fs.
Proof.
  intros Hincl. apply Forall_impl. intros f. now apply anchored_incl.
Qed.

Lemma anchored_at (sf : SourceFile) (n : Node) :
  isReportedKind n = true -> Forall (anchored sf (subnodes n)) [failureAt sf n].
Proof.
  intros H. constructor; [ | constructor ].
  exists n. split; [apply subnodes_self | split; [exact H | reflexivity]].
Qed.

Lemma In_skipn_In (A : Type) (k : nat) (l : list A) (x : A) :
  In x (skipn k l) -> In x l.
Proof.
  intros H. rewrite <- (firstn_skipn k l). apply in_or_app. now right.
Qed.

Lemma elementFindings_anchored (sf : SourceFile)
      (f : Node -> Node -> list RuleFailure) (ls : list Node) :
  Forall (fun l => forall r, Forall (anchored sf (subnodes r)) (f l r)) ls ->
  forall rs,
    Forall (anchored sf (flat_map subnodes rs)) (elementFindings f ls rs).
Proof.
  induction 1 as [|l ls Hl _ IH]; intros rs; [constructor | ].
  destruct rs as [|r rs]; [constructor | ].
  simpl. apply Forall_app. split.
  - apply (Forall_anchored_incl sf (subnodes r)); [ | apply Hl ].
    apply incl_appl, incl_refl.
  - destruct (isSpreadElement r); [constructor | ].
    apply (Forall_anchored_incl sf (flat_map subnodes rs)); [ | apply IH ].
    apply incl_appr, incl_refl.
Qed.

Lemma pairFindings_anchored (sf : SourceFile) (b : bool) (left : Node) :
  forall right : Node,
    Forall (anchored sf (subnodes right)) (pairFindings sf b left right).
Proof.
  induction left as
      [ | | | | | rg es IHes | | rg ps IHps | rg nm ini IHnm _ | | | | ]
      using Node_induction;
    intros right; rewrite pairFindings_eq;
    (apply Forall_app; split;
     [ destruct (isSameIdentifier _ right) eqn:Hid; [ | constructor ];
       apply anchored_at; unfold isSameIdentifier in Hid;
       apply andb_true_iff in Hid; destruct Hid as [Hid _];
       apply andb_true_iff in Hid; destruct Hid as [_ Hid];
       unfold isReportedKind; now rewrite Hid
     | ]);
    (apply Forall_app; split;
     [ | apply Forall_app; split;
         [ | apply Forall_app; split;
             [ | match goal with
                 | |- Forall _ (if ?c then _ else if ?d then _ else _) =>
                     destruct c eqn:Hc;
                     [ | destruct d eqn:Hd; [ | constructor ] ]
                 end;
                 apply anchored_at; unfold isReportedKind;
                 [ apply andb_true_iff in Hc; destruct Hc as [Hc _];
                   apply andb_true_iff in Hc; destruct Hc as [_ Hc];
                   rewrite Hc; now rewrite orb_true_r
                 | apply andb_true_iff in Hd; destruct Hd as [Hd _];
                   apply andb_true_iff in Hd; destruct Hd as [_ Hd];
                   rewrite Hd; now rewrite orb_true_r ] ] ] ]);
    try constructor.
  - destruct right; try constructor.
    apply (Forall_anchored_incl sf (flat_map subnodes elements)).
    + cbn [subnodes]. apply incl_tl, incl_refl.
    + now apply elementFindings_anchored.
  - destruct right; try constructor.
    apply Forall_flat_map. eapply Forall_impl; [ | exact IHps ].
    intros leftProp IH. cbv beta. apply Forall_flat_map, Forall_forall.
    intros rightProp Hin.
    apply (Forall_anchored_incl sf (subnodes rightProp)); [ | apply IH ].
    cbn [subnodes]. apply incl_tl. intros n Hn. apply in_flat_map.
    exists rightProp. split; [now apply In_skipn_In in Hin | exact Hn].
  - destruct ini; [constructor | ].
    destruct right as [ | | | | | | | | rr rn ri | | | | ]; try constructor.
    apply (Forall_anchored_incl sf (subnodes rn)); [ | apply IHnm ].
    cbn [subnodes]. apply incl_tl, incl_appl, incl_refl.
Qed.

Lemma Forall_anchored_app (sf : SourceFile) (a b : list Node)
      (x y : list RuleFailure) :
  Forall (anchored sf a) x -> Forall (anchored sf b) y ->
  Forall (anchored sf (a ++ b)) (x ++ y).
Proof.
  intros Hx Hy. apply Forall_app. split.
  - apply (Forall_anchored_incl sf a); [apply incl_appl, incl_refl | exact Hx].
  - apply (Forall_anchored_incl sf b); [apply incl_appr, incl_refl | exact Hy].
Qed.

Lemma flat_map_anchored (sf : SourceFile) (f : Node -> list RuleFailure)
      (cs : list Node) :
  Forall (fun c => Forall (anchored sf (subnodes c)) (f c)) cs ->
  Forall (anchored sf (flat_map subnodes cs)) (flat_map f cs).
Proof.
  induction 1 as [|c cs Hc _ IH]; simpl; [constructor | ].
  now apply Forall_anchored_app.
Qed.

Lemma childFindings_anchored (sf : SourceFile) (f : Node -> list RuleFailure)
      (c : option Node) :
  onChild (fun n => Forall (anchored sf (subnodes n)) (f n)) c ->
  Forall (anchored sf (childNodes subnodes c)) (childFindings f c).
Proof. destruct c; simpl; intros H; [exact H | constructor]. Qed.

Lemma nodeFindings_anchored (sf : SourceFile) (b : bool) (node : Node) :
  Forall (anchored sf (subnodes node)) (nodeFindings sf b node).
Proof.
  induction node as
      [ | | | rg e nm IHe IHnm | rg e a IHe IHa | rg es IHes | rg e IHe
        | rg ps IHps | rg nm ini IHnm IHini | rg e IHe
        | rg l op r IHl IHop IHr | rg ms nm ty ini IHms IHnm IHty IHini
        | rg k cs IHcs ]
      using Node_induction;
    rewrite nodeFindings_eq; cbn [subnodes];
    (apply Forall_app; split;
     [ | apply Forall_app; split;
         [ | match goal with
             | |- Forall (anchored sf (_ :: ?rest)) _ =>
                 apply (Forall_anchored_incl sf rest);
                 [apply incl_tl, incl_refl | ]
             end;
             repeat first
                    [ assumption
                    | apply Forall_nil
                    | apply flat_map_anchored; assumption
                    | apply childFindings_anchored; assumption
                    | apply Forall_anchored_app ] ] ]);
    try apply Forall_nil.
  - destruct (hasKind EqualsToken op); [ | constructor ].
    apply (Forall_anchored_incl sf (subnodes r));
      [ | apply pairFindings_anchored ].
    apply incl_tl, incl_appr, incl_appr, incl_refl.
  - destruct ini as [i|]; [ | constructor ].
    destruct (isPropertySelfAssigned _) eqn:Hself; [ | constructor ].
    apply (Forall_anchored_incl sf (subnodes i)).
    + apply incl_tl, incl_appr, incl_appr, incl_appr, incl_refl.
    + apply anchored_at. destruct i; try discriminate Hself. reflexivity.
Qed.

Lemma fileFindings_anchored (sf : SourceFile) (b : bool) :
  Forall (anchored sf (allNodes sf)) (fileFindings sf b).
Proof.
  unfold fileFindings, allNodes. apply Forall_anchored_app.
  - apply flat_map_anchored, Forall_forall. intros n _.
    apply nodeFindings_anchored.
  - apply nodeFindings_anchored.
Qed.

Lemma apply_Ok_fileFindings (ruleArguments : list JsValue) (sf : SourceFile)
      (found : list RuleFailure) :
  apply ruleArguments sf = Ok found -> exists b, found = fileFindings sf b.
Proof.
  destruct ruleArguments as [|first rest].
  - rewrite apply_default. intros H. exists true. congruence.
  - destruct (getProps first) as [p|e] eqn:Hfirst.
    + rewrite (apply_first first rest sf p Hfirst). intros H.
      exists (toBoolean p). congruence.
    + rewrite apply_allNodes.
      destruct (existsb isPlainAssignment (allNodes sf)) eqn:Hplain.
      * now rewrite (forEach_visit_unreadable sf first e _ Hfirst Hplain).
      * rewrite (forEach_visit_without_assignment sf first _ Hplain).
        intros H. exists true.
        pose proof (apply_default sf) as Hd. rewrite apply_allNodes in Hd.
        rewrite (forEach_visit_without_assignment sf _ _ Hplain) in Hd.
        cbn [bind failures app] in H, Hd. congruence.
Qed.

(** X10: whenever a run returns, every finding is the one [report]
    builds for some node of the file that is an identifier, a property
    access or an element access: its range is the range of that node
    and its message is [variable '<text>' is assigned to itself.] with
    the source text of that node. *)
Theorem findings_anchored_at_reported_kinds
    (ruleArguments : list JsValue) (sf : SourceFile) (found : list RuleFailure)
    (Hrun : apply ruleArguments sf = Ok found) :
  Forall (anchored sf (allNodes sf)) found.
Proof.
  destruct (apply_Ok_fileFindings ruleArguments sf found Hrun) as [b ->].
  apply fileFindings_anchored.
Qed.

Lemma findings_anchored_at_reported_kinds_witness :
  apply [] file_arr_nested
  = Ok [mkFailure 20 21 "variable 'b' is assigned to itself."]
  /\ Forall (anchored file_arr_nested (allNodes file_arr_nested))
            [mkFailure 20 21 "variable 'b' is assigned to itself."].
Proof.
  assert (Hrun : apply [] file_arr_nested
                 = Ok [mkFailure 20 21 "variable 'b' is assigned to itself."])
    by reflexivity.
  split; [exact Hrun | ].
  exact (findings_anchored_at_reported_kinds
           [] file_arr_nested
           [mkFailure 20 21 "variable 'b' is assigned to itself."] Hrun).
Defined.

(** ** The findings of a file, node by node *)

Lemma visit_frame (sf : SourceFile) (o : JsValue) (n : Node)
      (fs : list RuleFailure) (c : WalkContext) :
  visit n (mkContext sf o fs) = Ok c ->
  c = mkContext sf o (fs ++ findingsAt sf o n).
Proof.
  unfold findingsAt.
  destruct (isPlainAssignment n) eqn:Hplain.
  - destruct (getProps o) as [p|e] eqn:Ho.
    + destruct n; try discriminate Hplain. simpl in Hplain.
      unfold visit. rewrite Hplain. cbn [doCheck].
      rewrite !(@doCheckNode_findings sf o p Ho). cbn [bind failures app].
      congruence.
    + now rewrite (visit_plain_assignment_unreadable n (mkContext sf o fs) e Ho Hplain).
  - rewrite !(visit_other_node n sf o _ Hplain). cbn [failures app]. congruence.
Qed.

Lemma forEach_visit_frame (sf : SourceFile) (o : JsValue) (nodes : list Node) :
  forall (fs : list RuleFailure) (c : WalkContext),
    forEach visit nodes (mkContext sf o fs) = Ok c ->
    c = mkContext sf o (fs ++ flat_map (findingsAt sf o) nodes).
Proof.
  induction nodes as [|n nodes IH]; simpl; intros fs c H.
  - rewrite app_nil_r. congruence.
  - destruct (visit n (mkContext sf o fs)) as [c1|e] eqn:Hn; [ | discriminate H ].
    apply visit_frame in Hn. subst c1. cbn [bind] in H.
    apply IH in H. now rewrite app_assoc.
Qed.

Lemma apply_node_by_node (ruleArguments : list JsValue) (sf : SourceFile)
      (found : list RuleFailure) :
  apply ruleArguments sf = Ok found ->
  found = flat_map (findingsAt sf (optionsOf ruleArguments)) (allNodes sf).
Proof.
  rewrite apply_allNodes. fold (optionsOf ruleArguments).
  destruct (forEach visit (allNodes sf) _) as [c|e] eqn:Hrun; [ | discriminate ].
  apply forEach_visit_frame in Hrun. subst c. cbn [bind failures app]. congruence.
Qed.

(** X11: whenever a run returns, its findings are the findings of the
    nodes of the file taken one by one, each checked on its own from a
    context without findings, put end to end in document order; so what
    the check of a node finds is reported wherever the node sits in the
    file, and a self-assignment of an identifier nested anywhere is
    among the findings. *)
Theorem findings_compose_node_by_node
    (ruleArguments : list JsValue) (sf : SourceFile) (found : list RuleFailure)
    (Hrun : apply ruleArguments sf = Ok found) :
  found = flat_map (findingsAt sf (optionsOf ruleArguments)) (allNodes sf)
  /\ (forall node : Node,
         In node (allNodes sf) ->
         incl (findingsAt sf (optionsOf ruleArguments) node) found)
  /\ (forall (rg rl ro rr : TextRange) (x : string),
         In (BinaryExpression rg (Identifier rl x) (Token ro EqualsToken)
               (Identifier rr x))
            (allNodes sf) ->
         In (mkFailure (rangeStart rr) (rangeEnd rr)
               ("variable '"
                ++ jsSubstring (rangeStart rr) (rangeEnd rr) (sourceText sf)
                ++ "' is assigned to itself."))
            found).
Proof.
  pose proof (apply_node_by_node ruleArguments sf found Hrun) as Hfound.
  assert (Hincl : forall node,
             In node (allNodes sf) ->
             incl (findingsAt sf (optionsOf ruleArguments) node) found).
  { intros node Hnode f Hf. rewrite Hfound. apply in_flat_map.
    exists node. split; assumption. }
  split; [exact Hfound | split; [exact Hincl | ]].
  intros rg rl ro rr x Hnode.
  apply (Hincl _ Hnode).
  destruct (getProps (optionsOf ruleArguments)) as [p|e] eqn:Ho.
  - unfold findingsAt, visit. cbn [hasKind TokenKind_beq doCheck].
    rewrite (@doCheckNode_findings sf _ p Ho). cbn [bind failures app].
    rewrite pairFindings_eq. unfold isSameIdentifier. simpl.
    rewrite String.eqb_refl. simpl. rewrite !andb_false_r. now left.
  - exfalso. revert Hrun. rewrite apply_allNodes. fold (optionsOf ruleArguments).
    rewrite (forEach_visit_unreadable sf _ e (allNodes sf) Ho); [discriminate | ].
    apply existsb_exists. eexists. split; [exact Hnode | reflexivity].
Qed.

Lemma findings_compose_node_by_node_witness :
  apply [] file_arr_nested
  = Ok [mkFailure 20 21 "variable 'b' is assigned to itself."]
  /\ [mkFailure 20 21 "variable 'b' is assigned to itself."]
     = flat_map (findingsAt file_arr_nested (optionsOf []))
                (allNodes file_arr_nested).
Proof.
  assert (Hrun : apply [] file_arr_nested
                 = Ok [mkFailure 20 21 "variable 'b' is assigned to itself."])
    by reflexivity.
  split; [exact Hrun | ].
  exact (proj1 (findings_compose_node_by_node
                  [] file_arr_nested
                  [mkFailure 20 21 "variable 'b' is assigned to itself."] Hrun)).
Defined.

(** X12: the pairwise check only ever reports nodes of the right-hand
    side: when the options can be read, every finding it appends is the
    one [report] builds for an identifier, a property access or an
    element access that is the right side or sits below it. *)
Theorem doCheck_reports_right_side_only
    (left right : Node) (ctx : WalkContext)
    (Hctx : isNullish (options ctx) = false) :
  exists found : list RuleFailure,
    doCheck (Some left) (Some right) ctx
    = Ok (mkContext (sourceFile ctx) (options ctx) (failures ctx ++ found))
    /\ Forall (anchored (sourceFile ctx) (subnodes right)) found.
Proof.
  destruct (getProps_defined _ Hctx) as [p Hp].
  exists (pairFindings (sourceFile ctx) (toBoolean p) left right).
  split; [exact (doCheckNode_run left right ctx p Hp) | ].
  apply pairFindings_anchored.
Qed.

Lemma doCheck_reports_right_side_only_witness :
  let ctx := initialContext file_ident propsTrue in
  let x (s : nat) := Identifier (mkRange s (s + 1)) "x" in
  isNullish (options ctx) = false
  /\ exists found : list RuleFailure,
      doCheck (Some (x 0)) (Some (x 4)) ctx
      = Ok (mkContext (sourceFile ctx) (options ctx) (failures ctx ++ found))
      /\ Forall (anchored (sourceFile ctx) (subnodes (x 4))) found.
Proof.
  intros ctx x. split; [reflexivity | ].
  exact (doCheck_reports_right_side_only (x 0) (x 4) ctx eq_refl).
Defined.

(** ** The message *)

Lemma append_cancel_l (prefix a b : string) :
  (prefix ++ a = prefix ++ b)%string -> a = b.
Proof.
  induction prefix as [|c prefix IH]; simpl; intros H; [exact H | ].
  inversion H. now apply IH.
Qed.

Lemma length_append_string (a b : string) :
  String.length (a ++ b) = String.length a + String.length b.
Proof. induction a as [|c a IH]; simpl; [reflexivity | now rewrite IH]. Qed.

Lemma append_cancel_r (suffix : string) :
  forall a b : string, (a ++ suffix = b ++ suffix)%string -> a = b.
Proof.
  induction a as [|c a IH]; intros [|d b] H; simpl in H.
  - reflexivity.
  - apply (f_equal String.length) in H. simpl in H.
    rewrite length_append_string in H. lia.
  - apply (f_equal String.length) in H. simpl in H.
    rewrite length_append_string in H. lia.
  - inversion H. f_equal. now apply IH.
Qed.

(** X13: the message determines the text it was built from: two texts
    with the same failure string are equal, and the message is 34
    characters longer than the text. *)
Theorem failure_string_determines_text (name1 name2 : string)
    (Hsame : FAILURE_STRING name1 = FAILURE_STRING name2) :
  name1 = name2
  /\ String.length (FAILURE_STRING name1) = String.length name1 + 34.
Proof.
  split.
  - unfold FAILURE_STRING in Hsame.
    apply append_cancel_l in Hsame. now apply append_cancel_r in Hsame.
  - unfold FAILURE_STRING. rewrite !length_append_string. simpl. lia.
Qed.

Lemma failure_string_determines_text_witness :
  FAILURE_STRING "a.b" = "variable 'a.b' is assigned to itself."
  /\ "a.b" = "a.b"
  /\ String.length (FAILURE_STRING "a.b") = 3 + 34.
Proof.
  split; [reflexivity | ].
  exact (failure_string_determines_text "a.b" "a.b" eq_refl).
Defined.
